(** * mathllm: a shallow embedding of the C++ core

    The C++ sources under [cpp/src] implement five analyses on top of the
    SymEngine computer-algebra library: a rule-directed integrator and a
    differentiator ([symbolic.cpp]), a random-probe verifier ([numeric.cpp]),
    a fixed-step Runge-Kutta driver ([ode.cpp]) and a dimensional analyzer
    ([units.cpp]).

    SymEngine, the C++ standard library's random engine and libm are not part
    of the repository.  They appear here as the fields of three interfaces
    ([SymEngine.Engine], [Platform.Libm], [Platform.Random]); every function of
    the repository is a definition over those interfaces.  A C++ [double] is a
    primitive binary64 [float]; a C++ [int] is a [Z] reduced to 32 bits by
    [wrap_int]; an exception is the [Throw] branch of [result]. *)

From Stdlib Require Import ZArith List String Bool Lia Floats Uint63 Permutation.
From stdpp Require Import base gmap strings pretty.
Import ListNotations.

Set Warnings "-inexact-float,-register-all".
Local Open Scope string_scope.
Local Open Scope Z_scope.

(** ** Exceptions ([include/mathllm/errors.hpp]) *)

Module Errors.

(** The six subclasses of [MathLLMError]. *)
Inductive kind :=
| KParse | KSymbolic | KNumeric | KVerifier | KODE | KUnit.

(** The dynamic class of a thrown object, as far as the [catch] clauses of
    the sources tell classes apart.  [SymEngine::ParseError] derives from
    [SymEngine::SymEngineException], which derives from [std::exception];
    [MathLLMError] derives from [std::runtime_error]. *)
Inductive exn_class :=
| StdException
| SymEngineException
| SymEngineParseError
| MathLLMError (k : kind).

Record exn := Exn { class_of : exn_class; what : string }.

Definition kind_name (k : kind) : string :=
  match k with
  | KParse => "ParseError"
  | KSymbolic => "SymbolicError"
  | KNumeric => "NumericError"
  | KVerifier => "VerifierError"
  | KODE => "ODEError"
  | KUnit => "UnitError"
  end.

(** [explicit XError(const std::string& msg) : MathLLMError("XError: " + msg)] *)
Definition mathllm_error (k : kind) (msg : string) : exn :=
  Exn (MathLLMError k) (kind_name k +:+ ": " +:+ msg).

Definition ParseError := mathllm_error KParse.
Definition SymbolicError := mathllm_error KSymbolic.
Definition NumericError := mathllm_error KNumeric.
Definition VerifierError := mathllm_error KVerifier.
Definition ODEError := mathllm_error KODE.
Definition UnitError := mathllm_error KUnit.

Definition is_kind (k : kind) (e : exn) : bool :=
  match class_of e, k with
  | MathLLMError KParse, KParse
  | MathLLMError KSymbolic, KSymbolic
  | MathLLMError KNumeric, KNumeric
  | MathLLMError KVerifier, KVerifier
  | MathLLMError KODE, KODE
  | MathLLMError KUnit, KUnit => true
  | _, _ => false
  end.

(** [catch (const SymEngine::ParseError&)] *)
Definition is_symengine_parse_error (e : exn) : bool :=
  match class_of e with
  | SymEngineParseError => true
  | _ => false
  end.

(** A computation that returns normally or throws. *)
Inductive result (A : Type) :=
| Return (a : A)
| Throw (e : exn).
Arguments Return {A} a.
Arguments Throw {A} e.

Definition bind {A B} (r : result A) (k : A -> result B) : result B :=
  match r with
  | Return a => k a
  | Throw e => Throw e
  end.

(** [try { body } catch (...) { handler }] for a handler that sees every
    exception the body can throw. *)
Definition try_catch {A} (body : result A) (handler : exn -> result A) : result A :=
  match body with
  | Return a => Return a
  | Throw e => handler e
  end.

End Errors.
Export Errors.

Declare Scope result_scope.
Delimit Scope result_scope with result.
Notation "x <- c1 ;; c2" := (bind c1 (fun x => c2))
  (at level 100, c1 at next level, right associativity) : result_scope.

(** ** The SymEngine interface *)

Module SymEngine.

(** The classes of [SymEngine::Basic] the visitors of the repository
    dispatch on.  [Add] and [Mul] carry what [get_args()] returns, in its
    order.  [Constant] and [FunctionSymbol] stand for the classes no
    [bvisit] overload names: they reach the [bvisit(const Basic&)]
    fallbacks. *)
Inductive Basic :=
| Integer (i : Z)
| Rational (num : Z) (den : positive)
| RealDouble (d : float)
| Symbol (name : string)
| Constant (name : string)
| Add (args : list Basic)
| Mul (args : list Basic)
| Pow (base exp : Basic)
| Sin (arg : Basic)
| Cos (arg : Basic)
| Tan (arg : Basic)
| Log (arg : Basic)
| FunctionSymbol (name : string) (args : list Basic).

(** Induction on expressions, with the hypothesis on every argument of a
    node that carries a list. *)
Section Induction.
Variable P : Basic -> Prop.
Hypothesis P_Integer : forall i, P (Integer i).
Hypothesis P_Rational : forall n d, P (Rational n d).
Hypothesis P_RealDouble : forall d, P (RealDouble d).
Hypothesis P_Symbol : forall s, P (Symbol s).
Hypothesis P_Constant : forall s, P (Constant s).
Hypothesis P_Add : forall args, Forall P args -> P (Add args).
Hypothesis P_Mul : forall args, Forall P args -> P (Mul args).
Hypothesis P_Pow : forall b e, P b -> P e -> P (Pow b e).
Hypothesis P_Sin : forall a, P a -> P (Sin a).
Hypothesis P_Cos : forall a, P a -> P (Cos a).
Hypothesis P_Tan : forall a, P a -> P (Tan a).
Hypothesis P_Log : forall a, P a -> P (Log a).
Hypothesis P_FunctionSymbol : forall f args, Forall P args -> P (FunctionSymbol f args).

Fixpoint Basic_args_ind (b : Basic) : P b :=
  let all :=
    fix all (l : list Basic) : Forall P l :=
      match l with
      | [] => @List.Forall_nil Basic P
      | a :: l' => @List.Forall_cons Basic P a l' (Basic_args_ind a) (all l')
      end in
  match b with
  | Integer i => P_Integer i
  | Rational n d => P_Rational n d
  | RealDouble d => P_RealDouble d
  | Symbol s => P_Symbol s
  | Constant s => P_Constant s
  | Add args => P_Add args (all args)
  | Mul args => P_Mul args (all args)
  | Pow b e => P_Pow b e (Basic_args_ind b) (Basic_args_ind e)
  | Sin a => P_Sin a (Basic_args_ind a)
  | Cos a => P_Cos a (Basic_args_ind a)
  | Tan a => P_Tan a (Basic_args_ind a)
  | Log a => P_Log a (Basic_args_ind a)
  | FunctionSymbol f args => P_FunctionSymbol f args (all args)
  end.
End Induction.

Definition one : Basic := Integer 1.
Definition minus_one : Basic := Integer (-1).
Definition E : Basic := Constant "E".

(** [SymEngine::eq]: structural equality. *)
Fixpoint eq (a b : Basic) {struct a} : bool :=
  let eq_args :=
    fix eq_args (l1 l2 : list Basic) {struct l1} : bool :=
      match l1, l2 with
      | [], [] => true
      | x :: l1', y :: l2' => eq x y && eq_args l1' l2'
      | _, _ => false
      end in
  match a, b with
  | Integer i, Integer j => Z.eqb i j
  | Rational n d, Rational n' d' => Z.eqb n n' && Pos.eqb d d'
  | RealDouble x, RealDouble y => PrimFloat.eqb x y
  | Symbol s, Symbol s' => String.eqb s s'
  | Constant s, Constant s' => String.eqb s s'
  | Add l1, Add l2 => eq_args l1 l2
  | Mul l1, Mul l2 => eq_args l1 l2
  | Pow b1 e1, Pow b2 e2 => eq b1 b2 && eq e1 e2
  | Sin x, Sin y => eq x y
  | Cos x, Cos y => eq x y
  | Tan x, Tan y => eq x y
  | Log x, Log y => eq x y
  | FunctionSymbol f l1, FunctionSymbol g l2 => String.eqb f g && eq_args l1 l2
  | _, _ => false
  end.

(** [SymEngine::has_symbol(b, x)]: the symbol named [var] occurs in [b]. *)
Fixpoint has_symbol (b : Basic) (var : string) : bool :=
  match b with
  | Integer _ | Rational _ _ | RealDouble _ | Constant _ => false
  | Symbol s => String.eqb s var
  | Add args | Mul args | FunctionSymbol _ args =>
      existsb (fun a => has_symbol a var) args
  | Pow b e => has_symbol b var || has_symbol e var
  | Sin a | Cos a | Tan a | Log a => has_symbol a var
  end.

(** [enum class tribool { indeterminate = -1, trifalse = 0, tritrue = 1 }] *)
Inductive tribool := indeterminate | trifalse | tritrue.

Definition tribool_value (t : tribool) : Z :=
  match t with
  | indeterminate => -1
  | trifalse => 0
  | tritrue => 1
  end.

(** The library functions the repository calls.  The smart constructors
    canonicalize their result; nothing here fixes how. *)
Class Engine := {
  parse : string -> result Basic;
  add : Basic -> Basic -> Basic;
  sub : Basic -> Basic -> Basic;
  mul : Basic -> Basic -> Basic;
  div : Basic -> Basic -> Basic;
  pow : Basic -> Basic -> Basic;
  log : Basic -> Basic;
  sin : Basic -> Basic;
  cos : Basic -> Basic;
  (** [SymEngine::diff(expr, symbol, false)] *)
  diff : Basic -> string -> result Basic;
  expand : Basic -> result Basic;
  is_zero : Basic -> tribool;
  (** [Basic::__str__] *)
  str : Basic -> string;
  (** [mp_get_d] on an [integer_class] and on a [rational_class] *)
  mp_get_d : Z -> float;
  mp_get_d_rational : Z -> positive -> float;
  (** [eval_double] of [expr->subs(m)], for a substitution [m] of reals for symbols *)
  subs_eval_double : Basic -> gmap string float -> result float;
}.

End SymEngine.
Import SymEngine.

(** ** The C++ runtime: libm and <random> *)

Module Platform.

Class Libm := {
  std_pow : float -> float -> float;
  std_sin : float -> float;
  std_cos : float -> float;
  std_tan : float -> float;
  std_log : float -> float;
}.

(** [std::mt19937] seeded from an [unsigned int], and one draw of a
    [std::uniform_real_distribution<double>(a, b)], which advances the
    engine and keeps no state of its own. *)
Class Random := {
  mt19937 : Type;
  mt19937_seed : Z -> mt19937;
  uniform_real : float -> float -> mt19937 -> float * mt19937;
}.

(** A 32-bit two's complement [int].  C++ leaves the overflow of a signed
    addition or multiplication undefined; the model takes the wrapped
    value, which is also what the narrowing of a [long] to an [int] gives. *)
Definition wrap_int (z : Z) : Z := (z + 2^31) mod 2^32 - 2^31.

(** [std::max(a, b)]: [(a < b) ? b : a]. *)
Definition std_max (a b : float) : float := if PrimFloat.ltb a b then b else a.

(** [std::isfinite] *)
Definition isfinite (x : float) : bool := PrimFloat.is_finite x.

End Platform.
Import Platform.

(** ** Dimensions ([include/mathllm/units.h], [src/units.cpp]) *)

Module Units.

Record Dimension := mkDimension {
  length : Z; mass : Z; time : Z; current : Z;
  temperature : Z; amount : Z; luminosity : Z }.

(** [Dimension()] *)
Definition dimensionless : Dimension := mkDimension 0 0 0 0 0 0 0.

Definition is_dimensionless (d : Dimension) : bool :=
  (length d =? 0) && (mass d =? 0) && (time d =? 0) && (current d =? 0)
  && (temperature d =? 0) && (amount d =? 0) && (luminosity d =? 0).

(** [operator==] *)
Definition dim_eqb (a b : Dimension) : bool :=
  (length a =? length b) && (mass a =? mass b) && (time a =? time b)
  && (current a =? current b) && (temperature a =? temperature b)
  && (amount a =? amount b) && (luminosity a =? luminosity b).

(** [operator+] *)
Definition dim_add (a b : Dimension) : Dimension :=
  mkDimension (wrap_int (length a + length b)) (wrap_int (mass a + mass b))
    (wrap_int (time a + time b)) (wrap_int (current a + current b))
    (wrap_int (temperature a + temperature b)) (wrap_int (amount a + amount b))
    (wrap_int (luminosity a + luminosity b)).

(** [operator*(int scalar)] *)
Definition dim_scale (a : Dimension) (scalar : Z) : Dimension :=
  mkDimension (wrap_int (length a * scalar)) (wrap_int (mass a * scalar))
    (wrap_int (time a * scalar)) (wrap_int (current a * scalar))
    (wrap_int (temperature a * scalar)) (wrap_int (amount a * scalar))
    (wrap_int (luminosity a * scalar)).

(** The mutable members of [DimensionChecker]; [symbol_dims] is a const
    reference and is passed alongside. *)
Record DimensionChecker := mkChecker {
  result : Dimension;
  errors : list string;
  warnings : list string }.

Definition set_result (d : Dimension) (c : DimensionChecker) : DimensionChecker :=
  mkChecker d (errors c) (warnings c).
Definition push_error (msg : string) (c : DimensionChecker) : DimensionChecker :=
  mkChecker (result c) (errors c ++ [msg]) (warnings c).
Definition push_warning (msg : string) (c : DimensionChecker) : DimensionChecker :=
  mkChecker (result c) (errors c) (warnings c ++ [msg]).

Section Visitor.
Variable symbol_dims : gmap string Dimension.
(** [arg->accept] on this visitor *)
Variable accept : Basic -> DimensionChecker -> DimensionChecker.

Definition bvisit_Symbol (name : string) (c : DimensionChecker) : DimensionChecker :=
  match symbol_dims !! name with
  | Some d => set_result d c
  | None => set_result dimensionless
              (push_warning ("Unknown symbol dimension: " +:+ name) c)
  end.

Definition bvisit_Add (args : list Basic) (c : DimensionChecker) : DimensionChecker :=
  match args with
  | [] => set_result dimensionless c
  | arg0 :: rest =>
      let c := accept arg0 c in
      let first_dim := result c in
      (fix loop (rest : list Basic) (c : DimensionChecker) : DimensionChecker :=
         match rest with
         | [] => set_result first_dim c
         | arg :: rest' =>
             let c := accept arg c in
             if negb (dim_eqb (result c) first_dim) then
               set_result dimensionless
                 (push_error "Addition/subtraction requires matching dimensions" c)
             else loop rest' c
         end) rest c
  end.

(** In the body of the loop, [result] and [this->result] name the same
    member: the statement [result = result + this->result] runs after
    [arg->accept] has overwritten it, so it doubles the dimension
    of [arg] and drops what the earlier factors gave. *)
Definition bvisit_Mul (args : list Basic) (c : DimensionChecker) : DimensionChecker :=
  fold_left
    (fun c arg =>
       let c := accept arg c in
       set_result (dim_add (result c) (result c)) c)
    args (set_result dimensionless c).

Definition bvisit_Pow (base exp : Basic) (c : DimensionChecker) : DimensionChecker :=
  let c := accept base c in
  let base_dim := result c in
  let c := accept exp c in
  let exp_dim := result c in
  if negb (is_dimensionless exp_dim) then
    set_result dimensionless (push_error "Exponent must be dimensionless" c)
  else
    match exp with
    | Integer i =>
        (* [int exp_val = mp_get_si(...)] *)
        let exp_val := wrap_int i in
        set_result (dim_scale base_dim exp_val) c
    | Rational _ _ =>
        let c := if negb (is_dimensionless base_dim)
                 then push_warning "Fractional power of dimensional quantity" c
                 else c in
        set_result dimensionless c
    | _ =>
        let c := if negb (is_dimensionless base_dim)
                 then push_error "Non-integer power requires dimensionless base" c
                 else c in
        set_result dimensionless c
    end.

(** [bvisit(const Sin&)] and its three siblings differ in the name only. *)
Definition bvisit_function (fname : string) (arg : Basic) (c : DimensionChecker)
  : DimensionChecker :=
  let c := accept arg c in
  let c := if negb (is_dimensionless (result c))
           then push_error (fname +:+ "() argument must be dimensionless") c
           else c in
  set_result dimensionless c.

Definition bvisit_Basic (c : DimensionChecker) : DimensionChecker :=
  set_result dimensionless
    (push_warning "Unknown expression type for dimension analysis" c).
End Visitor.

(** Double dispatch: [x.accept(checker)] calls the [bvisit] overload of the
    dynamic class of [x]. *)
Fixpoint accept (symbol_dims : gmap string Dimension) (x : Basic)
    (c : DimensionChecker) {struct x} : DimensionChecker :=
  match x with
  | Symbol name => bvisit_Symbol symbol_dims name c
  | Integer _ | RealDouble _ | Rational _ _ => set_result dimensionless c
  | Add args => bvisit_Add (accept symbol_dims) args c
  | Mul args => bvisit_Mul (accept symbol_dims) args c
  | Pow base exp => bvisit_Pow (accept symbol_dims) base exp c
  | Sin arg => bvisit_function (accept symbol_dims) "sin" arg c
  | Cos arg => bvisit_function (accept symbol_dims) "cos" arg c
  | Tan arg => bvisit_function (accept symbol_dims) "tan" arg c
  | Log arg => bvisit_function (accept symbol_dims) "log" arg c
  | Constant _ | FunctionSymbol _ _ => bvisit_Basic c
  end.

Record UnitCheckResult := mkUnitCheckResult {
  ok : bool;
  uc_warnings : list string;
  uc_errors : list string;
  inferred_dimensions : gmap string Dimension }.

Definition unit_check `{Engine} (expr : string)
    (symbol_dimensions : gmap string Dimension) : UnitCheckResult :=
  match parse expr with
  | Throw e =>
      mkUnitCheckResult false [] ["Parse error: " +:+ what e] ∅
  | Return parsed =>
      let checker :=
        accept symbol_dimensions parsed (mkChecker dimensionless [] []) in
      mkUnitCheckResult
        (match errors checker with [] => true | _ => false end)
        (warnings checker) (errors checker)
        (<["result" := result checker]> ∅)
  end.

End Units.

(** ** Conversions between C++ arithmetic types *)

Module Convert.

(** An [int] or a [long long] converted to [double] (round to nearest). *)
Definition to_double (z : Z) : float :=
  if z <? 0 then PrimFloat.opp (PrimFloat.of_uint63 (Uint63.of_Z (- z)))
  else PrimFloat.of_uint63 (Uint63.of_Z z).

(** [a > b] and [a >= b] on doubles, false when an operand is NaN. *)
Definition gt (a b : float) : bool := PrimFloat.ltb b a.
Definition ge (a b : float) : bool := PrimFloat.leb b a.

End Convert.
Import Convert.

(** ** Symbolic operations ([src/symbolic.cpp]) *)

Module Symbolic.

(** The integrator recurses into a factor it has picked out of [get_args()]
    by a loop, which is no structural descent.  [integrate_basic] therefore
    takes a bound on the nesting depth it may recurse through; [None] means
    the bound was too small, never an outcome of the C++ code. *)
Definition fueled (A : Type) := option (result A).

Definition fbind {A B} (c : fueled A) (k : A -> fueled B) : fueled B :=
  match c with
  | None => None
  | Some (Throw e) => Some (Throw e)
  | Some (Return a) => k a
  end.

Definition unsupported : exn := SymbolicError "Unsupported integrand".

(** Nesting depth of an expression. *)
Fixpoint height (b : Basic) : nat :=
  match b with
  | Integer _ | Rational _ _ | RealDouble _ | Symbol _ | Constant _ => O
  | Add args | Mul args | FunctionSymbol _ args =>
      S (fold_right (fun a h => Nat.max (height a) h) O args)
  | Pow b e => S (Nat.max (height b) (height e))
  | Sin a | Cos a | Tan a | Log a => S (height a)
  end.

Section WithEngine.
Context `{Engine}.

Definition parse_expression (expr : string) : result Basic := parse expr.
Definition make_symbol (name : string) : Basic := Symbol name.

Section Rules.
(** The recursive calls of the three helpers. *)
Variable integrate_basic : Basic -> string -> fueled Basic.

(** The body of the loop of [integrate_add]. *)
Definition add_step (var : string) (acc : fueled Basic) (term : Basic)
  : fueled Basic :=
  fbind acc (fun result =>
  fbind (integrate_basic term var) (fun r =>
  Some (Return (add result r)))).

Definition integrate_add (args : list Basic) (var : string) : fueled Basic :=
  fold_left (add_step var) args (Some (Return (Integer 0))).

(** The body of the loop of [integrate_mul], on the pair
    [(constant, dependent)]. *)
Definition factor_step (var : string) (st : result (Basic * Basic))
    (factor : Basic) : result (Basic * Basic) :=
  bind st (fun '(constant, dependent) =>
  if has_symbol factor var then
    if negb (eq dependent one) then Throw unsupported
    else Return (constant, factor)
  else Return (mul constant factor, dependent)).

(** The loop of [integrate_mul] over the factors: the pair
    [(constant, dependent)] after the last factor, or the exception. *)
Definition split_factors (args : list Basic) (var : string)
  : result (Basic * Basic) :=
  fold_left (factor_step var) args (Return (one, one)).

Definition integrate_mul (mul_expr : Basic) (args : list Basic) (var : string)
  : fueled Basic :=
  match split_factors args var with
  | Throw e => Some (Throw e)
  | Return (constant, dependent) =>
      if eq dependent one then
        Some (Return (mul mul_expr (make_symbol var)))
      else
        fbind (integrate_basic dependent var) (fun r =>
        Some (Return (mul constant r)))
  end.
End Rules.

(** The partition of the factors the specification of the integrator
    speaks of: [D], the factors that contain [var], are those [contains]
    keeps; [C] is the product of the others, multiplied up with
    [SymEngine::mul] in the order of the factors. *)
Definition contains (var : string) (factor : Basic) : bool := has_symbol factor var.
Definition free_of (var : string) (factor : Basic) : bool := negb (has_symbol factor var).
Definition constant_part (var : string) (args : list Basic) (from : Basic) : Basic :=
  fold_left mul (List.filter (free_of var) args) from.

Definition integrate_pow (base exponent : Basic) (var : string) : result Basic :=
  if eq base E then
    if eq exponent (make_symbol var) then Return (pow base exponent)
    else Throw unsupported
  else if negb (eq base (make_symbol var)) then Throw unsupported
  else
    match exponent with
    | Integer _ =>
        if eq exponent minus_one then Return (log (make_symbol var))
        else
          let exponent_plus_one := add exponent one in
          Return (div (pow (make_symbol var) exponent_plus_one) exponent_plus_one)
    | _ => Throw unsupported
    end.

Fixpoint integrate_basic (fuel : nat) (expr : Basic) (var : string)
  : fueled Basic :=
  match fuel with
  | O => None
  | S fuel =>
      if negb (has_symbol expr var) then
        Some (Return (mul expr (make_symbol var)))
      else
        match expr with
        | Symbol _ =>
            if eq expr (make_symbol var) then
              let exponent_plus_one := Integer 2 in
              Some (Return (div (pow (make_symbol var) exponent_plus_one)
                              exponent_plus_one))
            else Some (Return (mul expr (make_symbol var)))
        | Add args => integrate_add (integrate_basic fuel) args var
        | Mul args => integrate_mul (integrate_basic fuel) expr args var
        | Pow base exponent => Some (integrate_pow base exponent var)
        | Sin arg =>
            if negb (eq arg (make_symbol var)) then Some (Throw unsupported)
            else Some (Return (mul minus_one (cos arg)))
        | Cos arg =>
            if negb (eq arg (make_symbol var)) then Some (Throw unsupported)
            else Some (Return (sin arg))
        | _ => Some (Throw unsupported)
        end
  end.

Definition to_string (expr : Basic) : string := str expr.

(** Both [catch] clauses of the four entry points rethrow alike, and
    [SymEngineException] and [MathLLMError] both derive from
    [std::exception]: every exception of the body is rethrown. *)
Definition rethrow_as {A} (k : kind) (body : result A) : result A :=
  try_catch body (fun ex => Throw (mathllm_error k (what ex))).

Definition integrate (expr var : string) : fueled string :=
  match parse_expression expr with
  | Throw ex => Some (rethrow_as KSymbolic (Throw ex))
  | Return parsed =>
      match integrate_basic (S (height parsed)) parsed var with
      | None => None
      | Some r =>
          Some (rethrow_as KSymbolic
                  (bind r (fun result => Return (to_string result))))
      end
  end.

Definition diff (expr var : string) : result string :=
  rethrow_as KSymbolic
    (bind (parse_expression expr) (fun parsed =>
     bind (SymEngine.diff parsed var) (fun result =>
     Return (to_string result)))).

(** [static_cast<bool>] of a [tribool]: non-zero is [true]. *)
Definition tribool_to_bool (t : tribool) : bool :=
  negb (tribool_value t =? 0).

(** [elapsed1] and [elapsed2] are what the two
    [duration_cast<milliseconds>(now() - start).count()] read. *)
Definition verify_equal (elapsed1 elapsed2 : Z)
    (lhs rhs : string) (timeout_ms : float) : result bool :=
  let timeout := Throw (VerifierError "Verification timeout exceeded") in
  let body :=
    bind (parse_expression lhs) (fun parsed_lhs =>
    bind (parse_expression rhs) (fun parsed_rhs =>
    if gt (to_double elapsed1) timeout_ms then timeout
    else
      let diff := sub parsed_lhs parsed_rhs in
      bind (expand diff) (fun simplified =>
      if gt (to_double elapsed2) timeout_ms then timeout
      else
        let tribool_result := is_zero simplified in
        match tribool_result with
        | indeterminate => Return false
        | _ => Return (tribool_to_bool tribool_result)
        end))) in
  (* [catch (const VerifierError&) { throw; }] comes first *)
  try_catch body (fun ex =>
    if is_kind KVerifier ex then Throw ex
    else Throw (VerifierError (what ex))).

End WithEngine.
End Symbolic.

(** ** Random-probe verifier ([src/numeric.cpp]) *)

Module Numeric.

Record ProbeResult := mkProbeResult {
  equal : bool;
  trials_executed : Z;
  failures : Z;
  max_errors : list float }.

Section WithPlatform.
Context `{Engine} `{Libm} `{Random}.

(** The variables the trial loop of [probe_equal] updates. *)
Record probe_state := mkProbeState {
  st_rng : mt19937;
  st_failures : Z;
  st_max_errors : list float }.

Section Evaluator.
Variable values : gmap string float.
(** [arg->accept] on this visitor, giving the member [result] it leaves. *)
Variable accept : Basic -> result float.

Definition bvisit_Symbol (name : string) : result float :=
  match values !! name with
  | Some v => Return v
  | None => Throw (NumericError ("Undefined symbol: " +:+ name))
  end.

Definition bvisit_Add (args : list Basic) : result float :=
  fold_left
    (fun acc arg =>
       bind acc (fun prev =>
       bind (accept arg) (fun result =>
       Return (prev + result)%float)))
    args (Return 0%float).

Definition bvisit_Mul (args : list Basic) : result float :=
  fold_left
    (fun acc arg =>
       bind acc (fun prev =>
       bind (accept arg) (fun result =>
       Return (prev * result)%float)))
    args (Return 1%float).

Definition bvisit_Pow (base exp : Basic) : result float :=
  bind (accept base) (fun base =>
  bind (accept exp) (fun exp =>
  Return (std_pow base exp))).

Definition bvisit_function (f : float -> float) (arg : Basic) : result float :=
  bind (accept arg) (fun result => Return (f result)).

Definition bvisit_Basic : result float :=
  Throw (NumericError "Unsupported expression type for numeric evaluation").
End Evaluator.

(** [NumericEvaluator]: no [bvisit] reads the member [result] before it
    has written it, so a visit is a function of the node and [values]. *)
Fixpoint accept (values : gmap string float) (x : Basic) {struct x}
  : result float :=
  match x with
  | Symbol name => bvisit_Symbol values name
  | Integer i => Return (mp_get_d i)
  | RealDouble d => Return d
  | Rational n d => Return (mp_get_d_rational n d)
  | Add args => bvisit_Add (accept values) args
  | Mul args => bvisit_Mul (accept values) args
  | Pow base exp => bvisit_Pow (accept values) base exp
  | Sin arg => bvisit_function (accept values) std_sin arg
  | Cos arg => bvisit_function (accept values) std_cos arg
  | Tan arg => bvisit_function (accept values) std_tan arg
  | Log arg => bvisit_function (accept values) std_log arg
  | Constant _ | FunctionSymbol _ _ => bvisit_Basic
  end.

Definition evaluate_at_point (expr : Basic) (point : gmap string float)
  : result float :=
  accept point expr.

(** One draw of the inner loop, with the replacement of tiny samples. *)
Definition draw_value (domain_min domain_max : float) (rng : mt19937)
  : float * mt19937 :=
  let '(value, rng) := uniform_real domain_min domain_max rng in
  let value :=
    if (PrimFloat.abs value <? 1e-10)%float then (domain_min + 0.1)%float
    else value in
  (value, rng).

(** [for (const auto& sym : symbols) { ...; point[sym] = value; }] *)
Definition draw_point (symbols : list string) (domain_min domain_max : float)
    (rng : mt19937) : gmap string float * mt19937 :=
  fold_left
    (fun '(point, rng) sym =>
       let '(value, rng) := draw_value domain_min domain_max rng in
       (<[sym := value]> point, rng))
    symbols (∅, rng).

(** The error of a trial whose two sides evaluated to finite values. *)
Definition trial_error (lhs_val rhs_val : float) : float :=
  let abs_error := PrimFloat.abs (lhs_val - rhs_val)%float in
  let rel_error := (abs_error / (PrimFloat.abs rhs_val + 1e-10))%float in
  std_max abs_error rel_error.

Definition record_failure (rng : mt19937) (st : probe_state) : probe_state :=
  mkProbeState rng (st_failures st + 1)
    (st_max_errors st ++ [PrimFloat.infinity]).

(** What one trial records, by the outcome of the two evaluations. *)
Definition trial_outcome (lhs rhs : Basic) (point : gmap string float)
    (threshold : float) : float * Z :=
  match evaluate_at_point lhs point, evaluate_at_point rhs point with
  | Return l, Return r =>
      if isfinite l && isfinite r then
        let err := std_max (PrimFloat.abs (l - r))
                     (PrimFloat.abs (l - r) / (PrimFloat.abs r + 1e-10))%float in
        (err, if gt err threshold then 1 else 0)
      else (PrimFloat.infinity, 1)
  | _, _ => (PrimFloat.infinity, 1)
  end.

(** One iteration of the trial loop. *)
Definition run_trial (lhs rhs : Basic) (symbols : list string)
    (domain_min domain_max threshold : float) (st : probe_state)
  : result probe_state :=
  let '(point, rng) := draw_point symbols domain_min domain_max (st_rng st) in
  match bind (evaluate_at_point lhs point) (fun lhs_val =>
        bind (evaluate_at_point rhs point) (fun rhs_val =>
        Return (lhs_val, rhs_val))) with
  | Throw ex =>
      (* [catch (const NumericError&)] *)
      if is_kind KNumeric ex then Return (record_failure rng st)
      else Throw ex
  | Return (lhs_val, rhs_val) =>
      if negb (isfinite lhs_val) || negb (isfinite rhs_val) then
        Return (record_failure rng st)
      else
        let error := trial_error lhs_val rhs_val in
        Return (mkProbeState rng
                  (if gt error threshold then st_failures st + 1
                   else st_failures st)
                  (st_max_errors st ++ [error]))
  end.

(** The points of [n] successive trials from a generator state, and what
    each of them records: the random stream as the draws alone advance it. *)
Fixpoint sample_points (n : nat) (symbols : list string)
    (domain_min domain_max : float) (rng : mt19937) : list (gmap string float) :=
  match n with
  | O => []
  | S n =>
      let '(point, rng) := draw_point symbols domain_min domain_max rng in
      point :: sample_points n symbols domain_min domain_max rng
  end.

Definition outcomes (lhs rhs : Basic) (threshold : float)
    (points : list (gmap string float)) : list (float * Z) :=
  map (fun point => trial_outcome lhs rhs point threshold) points.

(** [for (int trial = 0; trial < trials; ++trial)], by the number of
    iterations left. *)
Fixpoint trial_loop (remaining : nat) (lhs rhs : Basic) (symbols : list string)
    (domain_min domain_max threshold : float) (st : probe_state)
  : result probe_state :=
  match remaining with
  | O => Return st
  | S remaining =>
      bind (run_trial lhs rhs symbols domain_min domain_max threshold st)
        (fun st =>
           trial_loop remaining lhs rhs symbols domain_min domain_max
             threshold st)
  end.

Definition probe_equal (lhs_str rhs_str : string) (symbols : list string)
    (trials : Z) (seed : Z) (domain_min domain_max threshold : float)
  : result ProbeResult :=
  match symbols with
  | [] => Throw (NumericError "No symbols provided for numeric probe")
  | _ =>
    if trials <=? 0 then
      Throw (NumericError "Number of trials must be positive")
    else if ge domain_min domain_max then
      Throw (NumericError "Invalid domain: min must be less than max")
    else
      match bind (parse lhs_str) (fun lhs =>
            bind (parse rhs_str) (fun rhs => Return (lhs, rhs))) with
      | Throw e => Throw (NumericError ("Parse error: " +:+ what e))
      | Return (lhs, rhs) =>
          let rng := mt19937_seed seed in
          bind (trial_loop (Z.to_nat trials) lhs rhs symbols
                  domain_min domain_max threshold (mkProbeState rng 0 []))
            (fun st =>
               let equal := st_failures st =? 0 in
               Return (mkProbeResult equal trials (st_failures st)
                         (st_max_errors st)))
      end
  end.

End WithPlatform.
End Numeric.

(** ** Fixed-step Runge-Kutta driver ([src/ode.cpp]) *)

Module ODE.

Record ODEResult := mkODEResult {
  success : bool;
  t_values : list float;
  y_values : list (list float);
  steps_taken : Z;
  message : string }.

Definition set_message (msg : string) (r : ODEResult) : ODEResult :=
  mkODEResult (success r) (t_values r) (y_values r) (steps_taken r) msg.
Definition set_success (b : bool) (r : ODEResult) : ODEResult :=
  mkODEResult b (t_values r) (y_values r) (steps_taken r) (message r).
Definition incr_steps (r : ODEResult) : ODEResult :=
  mkODEResult (success r) (t_values r) (y_values r) (steps_taken r + 1) (message r).
Definition push_back (t : float) (y : list float) (r : ODEResult) : ODEResult :=
  mkODEResult (success r) (t_values r ++ [t]) (y_values r ++ [y])
    (steps_taken r) (message r).

Definition explosion_threshold : float := 1e10%float.

(** [for (double val : y) if (std::abs(val) > explosion_threshold) ...] *)
Definition exploded (y : list float) : bool :=
  existsb (fun val => gt (PrimFloat.abs val) explosion_threshold) y.

(** A property of every two neighbours of a sequence. *)
Fixpoint adjacent (R : float -> float -> Prop) (l : list float) : Prop :=
  match l with
  | a :: (b :: _) as tl => R a b /\ adjacent R tl
  | _ => True
  end.

(** The recorded times are strictly increasing, by the [<] of doubles. *)
Definition strictly_increasing (l : list float) : Prop :=
  adjacent (fun a b => PrimFloat.ltb a b = true) l.

(** Each recorded time is the one before it plus [h], in double arithmetic. *)
Definition steps_by (h : float) (l : list float) : Prop :=
  adjacent (fun a b => b = (a + h)%float) l.

(** The invariant of the recorded points while the call has not succeeded
    yet: one point per step and the initial one, each time the one before
    plus [h], the last of them the current [t]. *)
Definition recording (h : float) (t : float) (r : ODEResult) : Prop :=
  success r = false
  /\ List.length (t_values r) = List.length (y_values r)
  /\ Z.of_nat (List.length (t_values r)) = steps_taken r + 1
  /\ steps_by h (t_values r)
  /\ exists pre : list float, t_values r = (pre ++ [t])%list.

Definition recorded (h : float) (r : ODEResult) : Prop :=
  success r = true ->
  List.length (t_values r) = List.length (y_values r)
  /\ Z.of_nat (List.length (t_values r)) = steps_taken r + 1
  /\ steps_by h (t_values r).


Section WithEngine.
Context `{Engine}.

(** [ODEEvaluator::evaluate].  [symbols_.size() - 1] is a [size_t]. *)
Definition evaluate (expr_ : Basic) (symbols_ : list string)
    (t : float) (y : list float) : result (list float) :=
  if negb (Z.of_nat (List.length y)
           =? (Z.of_nat (List.length symbols_) - 1) mod 2^64) then
    Throw (ODEError "Mismatch between y values and symbols")
  else
    let subs : gmap string float :=
      match symbols_ with
      | [] => ∅
      | s0 :: rest =>
          fold_left (fun subs '(name, yi) => <[name := yi]> subs)
            (combine rest y) (<[s0 := t]> ∅)
      end in
    bind (subs_eval_double expr_ subs) (fun val =>
    if PrimFloat.is_nan val || PrimFloat.is_infinity val then
      Throw (ODEError "Invalid function evaluation: NaN or Inf")
    else Return [val]).

Section Stepper.
(** The evaluator object of one [solve_ivp] call. *)
Variable evaluator : float -> list float -> result (list float).
Variable h : float.

(** [k[0]] of the vector an evaluation returned. *)
Definition slope (t : float) (y : list float) : result float :=
  bind (evaluator t y) (fun k =>
  match k with
  | k0 :: _ => Return k0
  | [] =>
      (* never reached: [evaluate] returns a one-element vector, and
         [k[0]] of an empty one has no defined behaviour *)
      Throw (Exn StdException "k[0] of an empty vector")
  end).

(** The four evaluations of one step and the new [y]. *)
Definition rk4_step (t : float) (y : list float) : result (list float) :=
  bind (slope t y) (fun k1 =>
  let y_temp := map (fun yi => yi + 0.5 * h * k1)%float y in
  bind (slope (t + 0.5 * h)%float y_temp) (fun k2 =>
  let y_temp := map (fun yi => yi + 0.5 * h * k2)%float y in
  bind (slope (t + 0.5 * h)%float y_temp) (fun k3 =>
  let y_temp := map (fun yi => yi + h * k3)%float y in
  bind (slope (t + h)%float y_temp) (fun k4 =>
  Return (map (fun yi => yi + (h / 6) * (k1 + 2 * k2 + 2 * k3 + k4))%float
            y))))).

Definition finish (r : ODEResult) : ODEResult :=
  set_message "Integration completed successfully" (set_success true r).

(** [for (int step = 0; step < max_steps; ++step)], by the number of
    iterations left; the value is what [solve_ivp] returns or throws
    from inside its outer [try]. *)
Fixpoint rk4_loop (remaining : nat) (t1 : float) (t : float)
    (y : list float) (r : ODEResult) : result ODEResult :=
  match remaining with
  | O => Return (finish r)
  | S remaining =>
      match rk4_step t y with
      | Throw e =>
          (* [catch (const ODEError& e)] *)
          if is_kind KODE e then
            Return (set_message ("ODE evaluation failed: " +:+ what e) r)
          else Throw e
      | Return y =>
          let t := (t + h)%float in
          let r := incr_steps r in
          if exploded y then
            Return (set_success false
                      (set_message "Solution exploded (exceeded threshold)" r))
          else
            let r := push_back t y r in
            if ge t (t1 - 1e-10)%float then Return (finish r)
            else rk4_loop remaining t1 t y r
      end
  end.
End Stepper.

Definition solve_ivp (expr : string) (t0 t1 : float) (y0 : list float)
    (symbols : list string) (rtol atol : float) (max_steps : Z)
  : result ODEResult :=
  let result := mkODEResult false [] [] 0 "" in
  if PrimFloat.leb t1 t0 then
    Return (set_message "t1 must be greater than t0" result)
  else if Nat.eqb (List.length y0) 0 then
    Return (set_message "Initial conditions y0 cannot be empty" result)
  else if Nat.eqb (List.length symbols) 0 then
    Return (set_message "Symbols list cannot be empty" result)
  else if max_steps <=? 0 then
    Return (set_message "max_steps must be positive" result)
  else
    try_catch
      (bind (parse expr) (fun parsed =>
       let h := ((t1 - t0) / to_double max_steps)%float in
       let result := push_back t0 y0 result in
       rk4_loop (evaluate parsed symbols) h (Z.to_nat max_steps) t1 t0 y0 result))
      (fun e =>
         if is_symengine_parse_error e then
           Throw (ParseError ("Failed to parse ODE expression: " +:+ what e))
         else
           Throw (ODEError ("ODE integration failed: " +:+ what e))).

End WithEngine.
End ODE.

(** ** Inputs of the documented scenarios *)

Module Scenarios.

(** [{m: (0,1,0,0,0,0,0), v: (1,0,-1,0,0,0,0)}] *)
Definition kinetic_dims : gmap string Units.Dimension :=
  <["m" := Units.mkDimension 0 1 0 0 0 0 0]>
    (<["v" := Units.mkDimension 1 0 (-1) 0 0 0 0]> ∅).

(** The factors of [(1/2)*m*v^2].  [Mul::get_args()] puts the numeric
    coefficient first and the powers after it in the order of an internal
    dictionary, so the order of [m] and [v^2] is not fixed by the sources. *)
Definition kinetic_factors : list Basic :=
  [Rational 1 2; Symbol "m"; Pow (Symbol "v") (Integer 2)].


(** [(2,1,-2,0,0,0,0)], mass times length squared over time squared. *)
Definition energy : Units.Dimension := Units.mkDimension 2 1 (-2) 0 0 0 0.

End Scenarios.

(** ** A small platform to run the entry points on

    The theorems below hold for every [Engine], [Libm] and [Random].  To run
    an entry point on a concrete input one needs inhabitants; these are kept
    as small as the inputs they serve. *)

Module Sample.

Definition parse_failure : exn := Exn SymEngineParseError "Parsing Unsuccessful".

Definition x : Basic := Symbol "x".

(** The parse trees of a handful of inputs; every other input is rejected. *)
Definition parse (s : string) : result Basic :=
  if String.eqb s "x" then Return x
  else if String.eqb s "0" then Return (Integer 0)
  else if String.eqb s "x + x" then Return (Mul [Integer 2; x])
  else if String.eqb s "2*x" then Return (Mul [Integer 2; x])
  else if String.eqb s "x^2" then Return (Pow x (Integer 2))
  else if String.eqb s "x^3" then Return (Pow x (Integer 3))
  else if String.eqb s "10*y" then Return (Mul [Integer 10; Symbol "y"])
  else if String.eqb s "(1/2)*m*v^2" then
    Return (Mul [Rational 1 2; Symbol "m"; Pow (Symbol "v") (Integer 2)])
  else Throw parse_failure.

Definition add (a b : Basic) : Basic :=
  match a, b with
  | Integer i, Integer j => Integer (i + j)
  | _, _ => Add [a; b]
  end.

Definition mul (a b : Basic) : Basic :=
  match a, b with
  | Integer i, Integer j => Integer (i * j)
  | _, _ => Mul [a; b]
  end.

Definition sub (a b : Basic) : Basic :=
  if eq a b then Integer 0 else Add [a; Mul [minus_one; b]].

Definition div (a b : Basic) : Basic := Mul [a; Pow b minus_one].

Definition is_zero (b : Basic) : tribool :=
  match b with
  | Integer 0 => tritrue
  | Integer _ | Rational _ _ => trifalse
  | _ => indeterminate
  end.

Definition str (b : Basic) : string :=
  match b with
  | Symbol s => s
  | Integer 0 => "0"
  | Mul [Pow (Symbol s) (Integer 2); Pow (Integer 2) (Integer (-1))] =>
      "(1/2)*" +:+ s +:+ "**2"
  | _ => "<expr>"
  end.

(** Substitution of reals followed by evaluation, for sums and products of
    integers and symbols. *)
Fixpoint subs_eval_double (b : Basic) (m : gmap string float) : result float :=
  match b with
  | Integer i => Return (to_double i)
  | RealDouble d => Return d
  | Symbol s =>
      match m !! s with
      | Some v => Return v
      | None => Throw (Exn SymEngineException "Not Implemented")
      end
  | Add args =>
      fold_left (fun acc a =>
                   bind acc (fun p =>
                   bind (subs_eval_double a m) (fun v => Return (p + v)%float)))
        args (Return 0%float)
  | Mul args =>
      fold_left (fun acc a =>
                   bind acc (fun p =>
                   bind (subs_eval_double a m) (fun v => Return (p * v)%float)))
        args (Return 1%float)
  | _ => Throw (Exn SymEngineException "Not Implemented")
  end.

#[local] Instance engine : Engine := {|
  SymEngine.parse := parse;
  SymEngine.add := add;
  SymEngine.sub := sub;
  SymEngine.mul := mul;
  SymEngine.div := div;
  SymEngine.pow := Pow;
  SymEngine.log := Log;
  SymEngine.sin := Sin;
  SymEngine.cos := Cos;
  SymEngine.diff := fun _ _ => Throw (Exn SymEngineException "Not Implemented");
  SymEngine.expand := fun b => Return b;
  SymEngine.is_zero := is_zero;
  SymEngine.str := str;
  SymEngine.mp_get_d := to_double;
  SymEngine.mp_get_d_rational := fun n d => (to_double n / to_double (Zpos d))%float;
  SymEngine.subs_eval_double := subs_eval_double;
|}.

(** A libm that answers NaN everywhere. *)
#[local] Instance libm : Libm := {|
  std_pow := fun _ _ => PrimFloat.nan;
  std_sin := fun _ => PrimFloat.nan;
  std_cos := fun _ => PrimFloat.nan;
  std_tan := fun _ => PrimFloat.nan;
  std_log := fun _ => PrimFloat.nan;
|}.

(** A linear congruential generator in the place of [std::mt19937]. *)
#[local] Instance random : Random := {|
  mt19937 := Z;
  mt19937_seed := fun seed => seed mod 2^32;
  uniform_real := fun a b s =>
    let s' := (1103515245 * s + 12345) mod 2^31 in
    ((a + (b - a) * (to_double s' / to_double (2^31)))%float, s');
|}.

End Sample.

(** ** The rest of [Dimension] ([include/mathllm/units.h], [src/units.cpp]) *)

Module DimensionOps.
Import Units.

(** [operator-] *)
Definition dim_sub (a b : Dimension) : Dimension :=
  mkDimension (wrap_int (length a - length b)) (wrap_int (mass a - mass b))
    (wrap_int (time a - time b)) (wrap_int (current a - current b))
    (wrap_int (temperature a - temperature b)) (wrap_int (amount a - amount b))
    (wrap_int (luminosity a - luminosity b)).

(** [operator!=] *)
Definition dim_neqb (a b : Dimension) : bool := negb (dim_eqb a b).

(** The fields are [int]s. *)
Definition in_range (d : Dimension) : Prop :=
  let ok z := - 2^31 <= z < 2^31 in
  ok (length d) /\ ok (mass d) /\ ok (time d) /\ ok (current d)
  /\ ok (temperature d) /\ ok (amount d) /\ ok (luminosity d).

(** [scalar] times the exponents of [a], in unbounded arithmetic. *)
Definition times (a : Dimension) (scalar : Z) : Dimension :=
  mkDimension (length a * scalar) (mass a * scalar) (time a * scalar)
    (current a * scalar) (temperature a * scalar) (amount a * scalar)
    (luminosity a * scalar).

(** The lambda [append_dim] of [Dimension::to_string], on the pair of the
    stream written so far and the flag [first]; [oss << power] writes the
    decimal numeral of an [int]. *)
Definition append_dim (name : string) (power : Z) (st : string * bool)
  : string * bool :=
  let '(oss, first) := st in
  if negb (power =? 0) then
    let oss := if negb first then oss +:+ " " else oss in
    let first := false in
    let oss := oss +:+ name in
    let oss := if negb (power =? 1) then oss +:+ "^" +:+ pretty power else oss in
    (oss, first)
  else (oss, first).

Definition to_string (d : Dimension) : string :=
  if is_dimensionless d then "dimensionless"
  else
    let st := ("", true) in
    let st := append_dim "L" (length d) st in
    let st := append_dim "M" (mass d) st in
    let st := append_dim "T" (time d) st in
    let st := append_dim "A" (current d) st in
    let st := append_dim "K" (temperature d) st in
    let st := append_dim "mol" (amount d) st in
    let st := append_dim "cd" (luminosity d) st in
    fst st.

(** The seven exponents with the names [to_string] prints them under. *)
Definition named_powers (d : Dimension) : list (string * Z) :=
  [("L", length d); ("M", mass d); ("T", time d); ("A", current d);
   ("K", temperature d); ("mol", amount d); ("cd", luminosity d)].

(** The exponents [append_dim] writes. *)
Definition nonzero (np : string * Z) : bool := negb (snd np =? 0).

(** One printed factor: [NAME], or [NAME^power] when the power is not 1. *)
Definition factor_text (np : string * Z) : string :=
  let '(name, power) := np in
  if power =? 1 then name else name +:+ "^" +:+ pretty power.

End DimensionOps.

(** ** Readings of a [DimensionChecker] ([src/units.cpp]) *)

Module Diagnostics.
Import Units.

(** The checker [unit_check] starts from. *)
Definition fresh : DimensionChecker := mkChecker dimensionless [] [].

(** A checker [c] after a visit that, from [fresh], ends in [d]: the
    diagnostics of [d] behind those of [c], and the result of [d]. *)
Definition extend (c d : DimensionChecker) : DimensionChecker :=
  mkChecker (result d) (errors c ++ errors d) (warnings c ++ warnings d).

(** What a visit of [x] infers and reports on its own. *)
Definition dimension_of (dims : gmap string Dimension) (x : Basic) : Dimension :=
  result (accept dims x fresh).
Definition errors_of (dims : gmap string Dimension) (x : Basic) : list string :=
  errors (accept dims x fresh).
Definition warnings_of (dims : gmap string Dimension) (x : Basic) : list string :=
  warnings (accept dims x fresh).

Definition mismatch : string := "Addition/subtraction requires matching dimensions".

(** A visit commutes with the diagnostics recorded before it. *)
Definition commutes (dims : gmap string Dimension) (x : Basic) : Prop :=
  forall c d, accept dims x (extend c d) = extend c (accept dims x d).

(** A visit does not read the result left by the visit before it. *)
Definition forgets (dims : gmap string Dimension) (x : Basic) : Prop :=
  forall r c, accept dims x (set_result r c) = accept dims x c.

(** The terms of a sum after the first agree with its dimension. *)
Definition agree (dims : gmap string Dimension) (first_dim : Dimension)
    (rest : list Basic) : bool :=
  forallb (fun b => dim_eqb (dimension_of dims b) first_dim) rest.

(** What [bvisit] records for an elementary function of a dimensional
    argument. *)
Definition argument_error (fname : string) (d : Dimension) : list string :=
  if is_dimensionless d then []
  else [fname +:+ "() argument must be dimensionless"].




End Diagnostics.

(** ** What [NumericEvaluator] can evaluate ([src/numeric.cpp]) *)

Module Evaluable.

(** The expressions [NumericEvaluator] has an overload for all the way
    down, over symbols that [defined] holds of: literals, sums, products,
    powers and the four functions; a [Constant] such as [E] or [pi] and any
    other class reach the fallback [bvisit(const Basic&)]. *)
Fixpoint evaluable (defined : string -> bool) (x : Basic) : bool :=
  match x with
  | Symbol s => defined s
  | Integer _ | Rational _ _ | RealDouble _ => true
  | Add args | Mul args => forallb (evaluable defined) args
  | Pow b e => evaluable defined b && evaluable defined e
  | Sin a | Cos a | Tan a | Log a => evaluable defined a
  | Constant _ | FunctionSymbol _ _ => false
  end.

(** [values.find(name) != values.end()] *)
Definition defined_in (values : gmap string float) (s : string) : bool :=
  match values !! s with
  | Some _ => true
  | None => false
  end.

(** The name is one of [symbols]. *)
Definition listed (symbols : list string) (s : string) : bool :=
  existsb (String.eqb s) symbols.

(** A sampled value is not within [1e-10] of zero, unless it is the
    replacement [domain_min + 0.1] itself. *)
Definition sanitized (domain_min : float) (v : float) : Prop :=
  (PrimFloat.abs v <? 1e-10)%float = false \/ v = (domain_min + 0.1)%float.

End Evaluable.

(** ** Equation solving ([src/symbolic.cpp]) *)

Module Solving.

(** A [SymEngine::Set]: a [FiniteSet] with its container in iteration
    order, or a set of another class with what its [__str__] gives. *)
Inductive SymSet :=
| FiniteSet (container : list Basic)
| OtherSet (printed : string).

Class Solver := {
  (** [SymEngine::solve(equation, symbol)] *)
  solve : Basic -> string -> result SymSet;
}.

(** The second loop of [solutions_to_string]: [n] iterations are left, [i]
    is the index. *)
Fixpoint write_parts (parts : list string) (n i : nat) (oss : string) : string :=
  match n with
  | O => oss
  | S n =>
      let oss := oss +:+ nth i parts "" in
      let oss :=
        if Nat.ltb (i + 1) (List.length parts) then oss +:+ ", " else oss in
      write_parts parts n (i + 1) oss
  end.

Section WithEngine.
Context `{Engine}.

Definition solutions_to_string (set : SymSet) : string :=
  match set with
  | FiniteSet elements =>
      match elements with
      | [] => "[]"
      | _ =>
          let parts := map str elements in
          let oss := "[" in
          let oss := write_parts parts (List.length parts) 0 oss in
          oss +:+ "]"
      end
  | OtherSet printed => printed
  end.

Definition solve_equation `{Solver} (lhs rhs var : string) : result string :=
  Symbolic.rethrow_as KSymbolic
    (bind (Symbolic.parse_expression lhs) (fun parsed_lhs =>
     bind (Symbolic.parse_expression rhs) (fun parsed_rhs =>
     let equation := sub parsed_lhs parsed_rhs in
     bind (solve equation var) (fun result_set =>
     Return (solutions_to_string result_set))))).

End WithEngine.
End Solving.

(** ** The two-argument verifier ([src/verifier.cpp]) *)

Module Verifier.

Class Simplifier := {
  (** [SymEngine::simplify] *)
  simplify : Basic -> result Basic;
}.

(** [throw std::runtime_error(ex.what())] *)
Definition runtime_error (msg : string) : exn := Exn StdException msg.

Definition verify_equal `{Engine} `{Simplifier} (lhs rhs : string) : result bool :=
  try_catch
    (bind (parse lhs) (fun lhs_expr =>
     bind (parse rhs) (fun rhs_expr =>
     bind (simplify (sub lhs_expr rhs_expr)) (fun diff_expr =>
     Return (eq diff_expr (Integer 0))))))
    (fun ex => Throw (runtime_error (what ex))).

End Verifier.

(** ** The command line ([src/cli.cpp]) *)

Module Cli.

(** What a run of [main] leaves: the two streams and the exit status. *)
Record process := mkProcess {
  stdout : string;
  stderr : string;
  status : Z }.

(** [std::endl] and the line feeds of the usage text. *)
Definition endl : string := String (Ascii.ascii_of_nat 10) EmptyString.

Definition print_usage : string :=
  "Usage:" +:+ endl
  +:+ "  mathcore_cli integrate <expr> <var>" +:+ endl
  +:+ "  mathcore_cli diff <expr> <var>" +:+ endl
  +:+ "  mathcore_cli solve_equation <lhs> <rhs> <var>" +:+ endl
  +:+ "  mathcore_cli verify_equal <lhs> <rhs>" +:+ endl.

Definition usage : process := mkProcess print_usage "" 1.

(** [std::cout << value << std::endl; return 0;] around a call, with the
    [catch (const std::exception& ex)] of [main]. *)
Definition report (outcome : result string) : process :=
  match outcome with
  | Return value => mkProcess (value +:+ endl) "" 0
  | Throw ex => mkProcess "" (what ex +:+ endl) 1
  end.

Section WithEngine.
Context `{Engine} `{Solving.Solver}.

(** [argv] with the program name at index 0; [elapsed1] and [elapsed2] are
    the readings of the clock inside [verify_equal].  [None] stands for an
    integrator out of fuel, as in [Symbolic.integrate]. *)
Definition main (elapsed1 elapsed2 : Z) (argv : list string) : option process :=
  let argc := List.length argv in
  if Nat.ltb argc 2 then Some usage
  else
    let command := nth 1 argv "" in
    if String.eqb command "integrate" || String.eqb command "diff" then
      if Nat.ltb argc 4 then Some usage
      else
        let expr := nth 2 argv "" in
        let var := nth 3 argv "" in
        if String.eqb command "integrate" then
          option_map report (Symbolic.integrate expr var)
        else Some (report (Symbolic.diff expr var))
    else if String.eqb command "solve_equation" then
      if Nat.ltb argc 5 then Some usage
      else
        let lhs := nth 2 argv "" in
        let rhs := nth 3 argv "" in
        let var := nth 4 argv "" in
        Some (report (Solving.solve_equation lhs rhs var))
    else if String.eqb command "verify_equal" then
      if Nat.ltb argc 4 then Some usage
      else
        let lhs := nth 2 argv "" in
        let rhs := nth 3 argv "" in
        Some (report
                (bind (Symbolic.verify_equal elapsed1 elapsed2 lhs rhs 1000%float)
                   (fun b => Return (if b : bool then "true" else "false"))))
    else Some usage.

End WithEngine.
End Cli.

(** ** Instances of the two further interfaces, for the same small platform *)

Module SampleSolver.

(** Solves [x - c = 0] for an integer [c] and nothing else. *)
Definition solve (equation : Basic) (var : string) : result Solving.SymSet :=
  match equation with
  | Add [Symbol s; Mul [Integer (-1); Integer c]] =>
      if String.eqb s var then Return (Solving.FiniteSet [Integer c])
      else Throw (Exn SymEngineException "Not Implemented")
  | _ => Throw (Exn SymEngineException "Not Implemented")
  end.

#[local] Instance solver : Solving.Solver := {| Solving.solve := solve |}.

#[local] Instance simplifier : Verifier.Simplifier :=
  {| Verifier.simplify := fun b => Return b |}.

End SampleSolver.

(** ** The samples of a trial, by the raw draws ([src/numeric.cpp]) *)

Module Sampling.
Section WithRandom.
Context `{Random}.




End WithRandom.
End Sampling.

(** ** What [solve_ivp] has recorded between two iterations *)

Module Trajectory.
Import ODE.

(** A property of every two neighbours of a sequence of states. *)
Fixpoint chained (R : list float -> list float -> Prop)
    (l : list (list float)) : Prop :=
  match l with
  | a :: (b :: _) as tl => R a b /\ chained R tl
  | _ => True
  end.

(** [y[i] = y[i] + increment] for every [i], with one [increment]. *)
Definition shifted (a b : list float) : Prop :=
  exists increment : float, b = map (fun yi => (yi + increment)%float) a.

Definition completed : string := "Integration completed successfully".
Definition exploded_message : string := "Solution exploded (exceeded threshold)".

(** The state at the head of the loop with [remaining] iterations left. *)
Definition stepping (t0 : float) (y0 : list float) (max_steps : Z)
    (remaining : nat) (t : float) (y : list float) (r : ODEResult) : Prop :=
  success r = false
  /\ 0 <= steps_taken r
  /\ steps_taken r + Z.of_nat remaining = max_steps
  /\ List.length (t_values r) = List.length (y_values r)
  /\ Z.of_nat (List.length (t_values r)) = steps_taken r + 1
  /\ hd_error (t_values r) = Some t0
  /\ hd_error (y_values r) = Some y0
  /\ List.last (t_values r) t0 = t
  /\ List.last (y_values r) y0 = y
  /\ Forall (fun y' => List.length y' = List.length y0) (y_values r)
  /\ Forall (fun y' => exploded y' = false) (tl (y_values r))
  /\ chained shifted (y_values r)
  /\ message r <> completed.

(** What the loop hands back. *)
Definition settled (t0 t1 : float) (y0 : list float) (max_steps : Z)
    (r : ODEResult) : Prop :=
  0 <= steps_taken r <= max_steps
  /\ List.length (t_values r) = List.length (y_values r)
  /\ hd_error (t_values r) = Some t0
  /\ hd_error (y_values r) = Some y0
  /\ (Z.of_nat (List.length (t_values r)) = steps_taken r + 1
      \/ (message r = exploded_message
          /\ Z.of_nat (List.length (t_values r)) = steps_taken r))
  /\ Forall (fun y' => List.length y' = List.length y0) (y_values r)
  /\ Forall (fun y' => exploded y' = false) (tl (y_values r))
  /\ chained shifted (y_values r)
  /\ (success r = true <-> message r = completed)
  /\ (success r = true ->
      (1 <= steps_taken r
       /\ ge (List.last (t_values r) t0) (t1 - 1e-10)%float = true)
      \/ steps_taken r = max_steps).

End Trajectory.

(** * Properties *)

(** ** Dimensional analyzer *)

Section UnitsFacts.
Import Units Scenarios.

(** [bvisit(const Mul&)] leaves twice the dimension of the last factor
    visited, whatever the factors before it were. *)
Lemma bvisit_Mul_last (visit : Basic -> DimensionChecker -> DimensionChecker)
    (args : list Basic) (a : Basic) (c : DimensionChecker) :
  bvisit_Mul visit (args ++ [a]) c =
    let c' := visit a (bvisit_Mul visit args c) in
    set_result (dim_add (result c') (result c')) c'.
Proof.
  unfold bvisit_Mul. rewrite fold_left_app. reflexivity.
Qed.

Lemma kinetic_orders (args : list Basic) :
  Permutation args kinetic_factors -> In args (permutations kinetic_factors).
Proof.
  intros HP. apply list_elem_of_In, permutations_Permutation.
  symmetry. exact HP.
Qed.

(** [tests/test_units.cpp] on the same visitor.  [test_multiplication]
    passes by coincidence (both factors are lengths, and twice a length is
    an area); [test_division] and [test_dimensionless_constants] expect
    [L T^-1] and [L] where the visitor gives twice the last factor. *)
Example test_multiplication_by_coincidence :
  result (accept (<["length" := mkDimension 1 0 0 0 0 0 0]>
                    (<["width" := mkDimension 1 0 0 0 0 0 0]> ∅))
            (Mul [Symbol "length"; Symbol "width"])
            (mkChecker dimensionless [] []))
  = mkDimension 2 0 0 0 0 0 0.
Proof. vm_compute. reflexivity. Qed.

Example test_division_disagrees :
  let dims : gmap string Dimension :=
    <["distance" := mkDimension 1 0 0 0 0 0 0]>
      (<["time" := mkDimension 0 0 1 0 0 0 0]> ∅) in
  let quotient := Pow (Symbol "time") (Integer (-1)) in
  result (accept dims (Mul [Symbol "distance"; quotient])
            (mkChecker dimensionless [] []))
  = mkDimension 0 0 (-2) 0 0 0 0
  /\ result (accept dims (Mul [quotient; Symbol "distance"])
               (mkChecker dimensionless [] []))
     = mkDimension 2 0 0 0 0 0 0.
Proof. split; vm_compute; reflexivity. Qed.

Example test_dimensionless_constants_disagrees :
  result (accept (<["L" := mkDimension 1 0 0 0 0 0 0]> ∅)
            (Mul [Integer 5; Symbol "L"]) (mkChecker dimensionless [] []))
  = mkDimension 2 0 0 0 0 0 0.
Proof. vm_compute. reflexivity. Qed.

End UnitsFacts.

Section UnitCheck.
Import Units Scenarios.
Context `{Engine}.

(** C1.  On [(1/2)*m*v^2] with [m] a mass and [v] a velocity, [unit_check]
    reports [ok] but does not infer the dimension of an energy: whatever the
    order in which [get_args()] lists the three factors, the inferred
    dimension is twice the dimension of the last of them, that is one of
    [(0,0,0,0,0,0,0)], [(0,2,0,0,0,0,0)] and [(4,0,-4,0,0,0,0)]. *)
Theorem unit_check_kinetic_energy (args : list Basic) :
  parse "(1/2)*m*v^2" = Return (Mul args) ->
  Permutation args kinetic_factors ->
  let r := unit_check "(1/2)*m*v^2" kinetic_dims in
  ok r = true
  /\ inferred_dimensions r !! "result" <> Some energy
  /\ (inferred_dimensions r !! "result" = Some dimensionless
      \/ inferred_dimensions r !! "result" = Some (mkDimension 0 2 0 0 0 0 0)
      \/ inferred_dimensions r !! "result" = Some (mkDimension 4 0 (-4) 0 0 0 0)).
Proof.
  intros Hparse HP r. subst r. unfold unit_check. rewrite Hparse.
  apply kinetic_orders in HP. vm_compute in HP.
  repeat (destruct HP as [<- | HP]; [vm_compute; intuition congruence |]).
  destruct HP.
Qed.

End UnitCheck.

Lemma unit_check_kinetic_energy_witness :
  let r := Units.unit_check (H := Sample.engine) "(1/2)*m*v^2" Scenarios.kinetic_dims in
  Units.ok r = true
  /\ Units.inferred_dimensions r !! "result" <> Some Scenarios.energy
  /\ (Units.inferred_dimensions r !! "result" = Some Units.dimensionless
      \/ Units.inferred_dimensions r !! "result" = Some (Units.mkDimension 0 2 0 0 0 0 0)
      \/ Units.inferred_dimensions r !! "result" = Some (Units.mkDimension 4 0 (-4) 0 0 0 0)).
Proof.
  apply (unit_check_kinetic_energy (H := Sample.engine) Scenarios.kinetic_factors).
  - reflexivity.
  - apply Permutation_refl.
Defined.

(** ** Symbolic operations *)

Section SymbolicFacts.
Import Symbolic.
Context `{Engine}.

(** An entry point wrapped in the two [catch] clauses throws nothing but
    its own kind of error. *)
Lemma rethrow_as_class {A} (k : kind) (body : result A) (e : exn) :
  rethrow_as k body = Throw e -> class_of e = MathLLMError k.
Proof.
  destruct body as [a | ex]; cbn; intros Heq; [discriminate |].
  injection Heq as <-. reflexivity.
Qed.

(** C2, as the code has it.  When the parser rejects the input, the empty
    string in particular, [diff] fails with [SymbolicError] carrying the
    parser's message; and whatever [diff] throws is a [SymbolicError]. *)
Theorem diff_parse_failure_is_SymbolicError (expr var : string) (ex : exn) :
  parse expr = Throw ex ->
  Symbolic.diff expr var = Throw (SymbolicError (what ex))
  /\ forall e, Symbolic.diff expr var = Throw e -> is_kind KParse e = false.
Proof.
  intros Hparse. unfold Symbolic.diff, parse_expression. rewrite Hparse. cbn.
  split; [reflexivity |].
  intros e Heq. injection Heq as <-. reflexivity.
Qed.

(** [verify_equal] when neither reading of the clock exceeds the timeout. *)
Lemma verify_equal_in_time (elapsed1 elapsed2 : Z) (lhs rhs : string)
    (timeout_ms : float) (l r s : Basic) :
  parse lhs = Return l ->
  parse rhs = Return r ->
  gt (to_double elapsed1) timeout_ms = false ->
  expand (sub l r) = Return s ->
  gt (to_double elapsed2) timeout_ms = false ->
  verify_equal elapsed1 elapsed2 lhs rhs timeout_ms =
    Return (match is_zero s with tritrue => true | _ => false end).
Proof.
  intros Hl Hr H1 Hs H2. unfold verify_equal, parse_expression.
  rewrite Hl, Hr. cbn [bind]. rewrite H1, Hs. cbn [bind]. rewrite H2.
  destruct (is_zero s); reflexivity.
Qed.

(** [verify_equal] when a reading of the clock exceeds the timeout. *)
Lemma verify_equal_late (elapsed1 elapsed2 : Z) (lhs rhs : string)
    (timeout_ms : float) (l r s : Basic) :
  parse lhs = Return l ->
  parse rhs = Return r ->
  expand (sub l r) = Return s ->
  gt (to_double elapsed1) timeout_ms = true
  \/ gt (to_double elapsed2) timeout_ms = true ->
  verify_equal elapsed1 elapsed2 lhs rhs timeout_ms =
    Throw (VerifierError "Verification timeout exceeded").
Proof.
  intros Hl Hr Hs Hlate. unfold verify_equal, parse_expression.
  rewrite Hl, Hr. cbn [bind].
  destruct (gt (to_double elapsed1) timeout_ms); [reflexivity |].
  rewrite Hs. cbn [bind].
  destruct Hlate as [Hlate | ->]; [discriminate | reflexivity].
Qed.

(** C5, as the code has it.  Let SymEngine read [x + x] and [2*x] as the
    same product, give 0 for the difference of that product and itself,
    expand 0 to 0 and test 0 as zero; and let it read [x^2] and [x^3] as
    the two powers, whose difference is a sum that expanding leaves as it
    is, the zero test being indeterminate on sums.  Then, when neither
    reading of the clock exceeds the 100 ms,
    [verify_equal("x + x", "2*x", 100)] returns [true] and
    [verify_equal("x^2", "x^3", 100)] returns [false]; when a reading
    exceeds them, both calls throw
    [VerifierError("Verification timeout exceeded")] instead.  On every
    input and timeout, a call that is not timed out and whose zero test is
    [indeterminate] returns [false]. *)
Theorem verify_equal_zero_test (elapsed1 elapsed2 : Z) (terms : list Basic) :
  parse "x + x" = Return (Mul [Integer 2; Symbol "x"]) ->
  parse "2*x" = Return (Mul [Integer 2; Symbol "x"]) ->
  sub (Mul [Integer 2; Symbol "x"]) (Mul [Integer 2; Symbol "x"]) = Integer 0 ->
  expand (Integer 0) = Return (Integer 0) ->
  is_zero (Integer 0) = tritrue ->
  parse "x^2" = Return (Pow (Symbol "x") (Integer 2)) ->
  parse "x^3" = Return (Pow (Symbol "x") (Integer 3)) ->
  sub (Pow (Symbol "x") (Integer 2)) (Pow (Symbol "x") (Integer 3)) = Add terms ->
  expand (Add terms) = Return (Add terms) ->
  (forall args, is_zero (Add args) = indeterminate) ->
  (gt (to_double elapsed1) 100 = false ->
   gt (to_double elapsed2) 100 = false ->
   verify_equal elapsed1 elapsed2 "x + x" "2*x" 100 = Return true
   /\ verify_equal elapsed1 elapsed2 "x^2" "x^3" 100 = Return false)
  /\ (gt (to_double elapsed1) 100 = true \/ gt (to_double elapsed2) 100 = true ->
      verify_equal elapsed1 elapsed2 "x + x" "2*x" 100
      = Throw (VerifierError "Verification timeout exceeded")
      /\ verify_equal elapsed1 elapsed2 "x^2" "x^3" 100
         = Throw (VerifierError "Verification timeout exceeded"))
  /\ (forall lhs rhs timeout_ms l r s,
      parse lhs = Return l -> parse rhs = Return r ->
      gt (to_double elapsed1) timeout_ms = false ->
      expand (sub l r) = Return s ->
      gt (to_double elapsed2) timeout_ms = false ->
      is_zero s = indeterminate ->
      verify_equal elapsed1 elapsed2 lhs rhs timeout_ms = Return false).
Proof.
  intros Hsum Hproduct Hsame Hexpand0 Hzero Hsquare Hcube Hdiff Hexpand Hsums.
  split; [| split].
  - intros H1 H2. split.
    + rewrite (verify_equal_in_time _ _ _ _ _ _ _ (Integer 0) Hsum Hproduct H1)
        by (rewrite ?Hsame; assumption).
      rewrite Hzero. reflexivity.
    + rewrite (verify_equal_in_time _ _ _ _ _ _ _ (Add terms) Hsquare Hcube H1)
        by (rewrite ?Hdiff; assumption).
      rewrite Hsums. reflexivity.
  - intros Hlate. split.
    + apply (verify_equal_late _ _ _ _ _ _ _ (Integer 0) Hsum Hproduct);
        [rewrite Hsame; exact Hexpand0 | exact Hlate].
    + apply (verify_equal_late _ _ _ _ _ _ _ (Add terms) Hsquare Hcube);
        [rewrite Hdiff; exact Hexpand | exact Hlate].
  - intros lhs rhs timeout_ms l r s Hl Hr H1 Hs H2 Hz.
    rewrite (verify_equal_in_time _ _ _ _ _ l r s) by assumption.
    rewrite Hz. reflexivity.
Qed.

Lemma eq_symbol_refl (v : string) : eq (Symbol v) (Symbol v) = true.
Proof. cbn. apply String.eqb_refl. Qed.

(** C3.  Integrating [v^n] for an integer literal [n] gives [log(v)] when
    [n = -1] and [v^(n+1)/(n+1)] otherwise; integrating [v] itself gives
    [v^2/2], and [integrate("x", "x")] prints that expression. *)
Theorem integrate_power_rule (v : string) (n : Z) (fuel : nat) :
  (forall i j, add (Integer i) (Integer j) = Integer (i + j)) ->
  parse "x" = Return (Symbol "x") ->
  integrate_basic (S fuel) (Pow (Symbol v) (Integer n)) v =
    Some (Return (if n =? -1 then log (Symbol v)
                  else div (pow (Symbol v) (Integer (n + 1))) (Integer (n + 1))))
  /\ integrate_basic (S fuel) (Symbol v) v =
       Some (Return (div (pow (Symbol v) (Integer 2)) (Integer 2)))
  /\ integrate "x" "x" =
       Some (Return (str (div (pow (Symbol "x") (Integer 2)) (Integer 2)))).
Proof.
  intros Hadd Hparse. repeat split.
  - cbn [integrate_basic has_symbol]. rewrite String.eqb_refl. cbn [orb negb].
    unfold integrate_pow, make_symbol. rewrite eq_symbol_refl.
    cbn [eq E minus_one negb]. unfold one. rewrite Hadd.
    destruct (n =? -1); reflexivity.
  - cbn [integrate_basic has_symbol]. rewrite String.eqb_refl. cbn [negb].
    unfold make_symbol. rewrite eq_symbol_refl. reflexivity.
  - unfold integrate, parse_expression. rewrite Hparse. reflexivity.
Qed.

End SymbolicFacts.

(** C2 as stated fails: no SymEngine at all makes [diff("", "x")] throw a
    [ParseError]. *)
Lemma diff_empty_never_ParseError :
  ~ (exists (E : Engine) (msg : string),
        Symbolic.diff (H := E) "" "x" = Throw (ParseError msg)).
Proof.
  intros (E & msg & Heq).
  apply rethrow_as_class in Heq. discriminate.
Qed.

(** ** The integrator on products *)

Section IntegratorFacts.
Import Symbolic.
Context `{Engine}.

Lemma has_symbol_not_one (f : Basic) (v : string) :
  has_symbol f v = true -> eq f one = false.
Proof. destruct f; cbn; intros Hs; solve [reflexivity | discriminate]. Qed.

Lemma factor_step_Throw (v : string) (args : list Basic) (e : exn) :
  fold_left (factor_step v) args (Throw e) = Throw e.
Proof. induction args as [| a args IH]; cbn; [reflexivity | exact IH]. Qed.

(** Once a factor containing [v] has been picked, a second one throws. *)
Lemma factor_loop_dependent (v : string) (args : list Basic) :
  forall c d, eq d one = false ->
    fold_left (factor_step v) args (Return (c, d)) =
      match List.filter (contains v) args with
      | [] => Return (constant_part v args c, d)
      | _ :: _ => Throw unsupported
      end.
Proof.
  induction args as [| a args IH]; intros c d Hd; [reflexivity |].
  cbn [fold_left List.filter]. unfold constant_part, contains, free_of in *.
  cbn [factor_step bind List.filter]. destruct (has_symbol a v); cbn [negb].
  - rewrite Hd. cbn [negb]. apply factor_step_Throw.
  - rewrite (IH _ _ Hd). reflexivity.
Qed.

Lemma factor_loop_one (v : string) (args : list Basic) :
  forall c,
    fold_left (factor_step v) args (Return (c, one)) =
      match List.filter (contains v) args with
      | [] => Return (constant_part v args c, one)
      | [d] => Return (constant_part v args c, d)
      | _ :: _ :: _ => Throw unsupported
      end.
Proof.
  induction args as [| a args IH]; intros c; [reflexivity |].
  cbn [fold_left List.filter]. unfold constant_part, contains, free_of in *.
  cbn [factor_step bind List.filter]. destruct (has_symbol a v) eqn:Ha; cbn [negb].
  - change (eq one one) with true. cbn [negb].
    rewrite (factor_loop_dependent v args c a (has_symbol_not_one a v Ha)).
    unfold constant_part, contains, free_of.
    destruct (List.filter (fun factor => has_symbol factor v) args); reflexivity.
  - rewrite IH. reflexivity.
Qed.

(** What [integrate_mul] does, by the factors that contain [var]. *)
Lemma integrate_mul_cases (rec : Basic -> string -> fueled Basic)
    (mul_expr : Basic) (args : list Basic) (var : string) :
  integrate_mul rec mul_expr args var =
    match List.filter (contains var) args with
    | [] => Some (Return (mul mul_expr (Symbol var)))
    | [d] => fbind (rec d var) (fun r =>
             Some (Return (mul (constant_part var args one) r)))
    | _ :: _ :: _ => Some (Throw (SymbolicError "Unsupported integrand"))
    end.
Proof.
  unfold integrate_mul, split_factors. rewrite factor_loop_one.
  destruct (List.filter (contains var) args) as [| d [| d' ds]] eqn:Hf.
  - reflexivity.
  - assert (Hd : contains var d = true).
    { apply (proj1 (filter_In (contains var) d args)).
      rewrite Hf. left. reflexivity. }
    rewrite (has_symbol_not_one d var Hd). reflexivity.
  - reflexivity.
Qed.

Lemma height_In (t : Basic) (args : list Basic) :
  In t args ->
  (height t <= fold_right (fun a h => Nat.max (height a) h) O args)%nat.
Proof.
  induction args as [| a args IH]; cbn [In fold_right]; [tauto |].
  intros [-> | Hin]; [| specialize (IH Hin)]; lia.
Qed.

Lemma add_loop_ext (rec rec' : Basic -> string -> fueled Basic) (v : string)
    (args : list Basic) :
  (forall t, In t args -> rec t v = rec' t v) ->
  forall acc, fold_left (add_step rec v) args acc
              = fold_left (add_step rec' v) args acc.
Proof.
  induction args as [| a args IH]; intros Hext acc; [reflexivity |].
  cbn [fold_left]. unfold add_step at 2 4.
  rewrite (Hext a) by (left; reflexivity).
  apply IH. intros t Ht. apply Hext. right. exact Ht.
Qed.

Lemma add_loop_Some (rec : Basic -> string -> fueled Basic) (v : string)
    (args : list Basic) :
  (forall t, In t args -> exists r, rec t v = Some r) ->
  forall acc, exists r, fold_left (add_step rec v) args (Some acc) = Some r.
Proof.
  induction args as [| a args IH]; intros Hall acc; [eexists; reflexivity |].
  cbn [fold_left]. destruct acc as [b | e]; cbn [add_step fbind].
  - destruct (Hall a (or_introl Logic.eq_refl)) as [[r | e] ->]; cbn [fbind];
      apply IH; intros t Ht; apply Hall; right; exact Ht.
  - apply IH. intros t Ht. apply Hall. right. exact Ht.
Qed.

(** A bound above the nesting depth is enough, and a larger one changes
    nothing. *)
Lemma integrate_basic_fuel (v : string) (fuel : nat) :
  forall e, (height e < fuel)%nat ->
    (exists r, integrate_basic fuel e v = Some r)
    /\ forall fuel', (fuel <= fuel')%nat ->
         integrate_basic fuel' e v = integrate_basic fuel e v.
Proof.
  induction fuel as [| f IH]; intros e Hh; [lia |].
  assert (Hsub : forall t args,
             (S (fold_right (fun a h => Nat.max (height a) h) O args) < S f)%nat ->
             In t args -> (height t < f)%nat).
  { intros t args Hlt Hin. pose proof (height_In t args Hin). lia. }
  split.
  - cbn [integrate_basic]. destruct (negb (has_symbol e v)); [eauto |].
    destruct e; try (eexists; reflexivity).
    + destruct (eq (Symbol name) (make_symbol v)); eexists; reflexivity.
    + apply add_loop_Some. intros t Ht. apply IH. eapply Hsub; eauto.
    + rewrite integrate_mul_cases.
      destruct (List.filter (contains v) args) as [| d [| d' ds]] eqn:Hf;
        try (eexists; reflexivity).
      assert (Hd : In d args).
      { apply (proj1 (filter_In (contains v) d args)). rewrite Hf. left. reflexivity. }
      destruct (proj1 (IH d (Hsub _ _ Hh Hd))) as [[r | ex] ->];
        eexists; reflexivity.
    + destruct (negb (eq e (make_symbol v))); eexists; reflexivity.
    + destruct (negb (eq e (make_symbol v))); eexists; reflexivity.
  - intros [| f'] Hle; [lia |]. cbn [integrate_basic].
    destruct (negb (has_symbol e v)); [reflexivity |].
    destruct e; try reflexivity.
    + apply add_loop_ext. intros t Ht.
      destruct (IH t (Hsub _ _ Hh Ht)) as [_ Hst].
      apply Hst. lia.
    + rewrite !integrate_mul_cases.
      destruct (List.filter (contains v) args) as [| d [| d' ds]] eqn:Hf;
        try reflexivity.
      assert (Hd : In d args).
      { apply (proj1 (filter_In (contains v) d args)). rewrite Hf. left. reflexivity. }
      destruct (IH d (Hsub _ _ Hh Hd)) as [_ Hst].
      rewrite (Hst f') by lia. reflexivity.
Qed.

(** C4.  On a product, with enough fuel for its depth, the integrator looks
    at the factors that contain [var]: none, and the result is the whole
    product times [var]; exactly one, [d], and the result is the product of
    the other factors times the integral of [d] (an exception of that
    integral propagates); two or more, and it throws
    [SymbolicError("Unsupported integrand")]. *)
Theorem integrate_mul_partition (args : list Basic) (var : string) (fuel : nat) :
  (height (Mul args) < fuel)%nat ->
  (exists r, integrate_basic fuel (Mul args) var = Some r)
  /\ integrate_basic fuel (Mul args) var =
       match List.filter (contains var) args with
       | [] => Some (Return (mul (Mul args) (Symbol var)))
       | [d] => fbind (integrate_basic fuel d var) (fun r =>
                Some (Return (mul (constant_part var args one) r)))
       | _ :: _ :: _ => Some (Throw (SymbolicError "Unsupported integrand"))
       end.
Proof.
  intros Hh. split; [apply integrate_basic_fuel; exact Hh |].
  destruct fuel as [| f]; [lia |].
  destruct (List.filter (contains var) args) as [| d ds] eqn:Hf.
  - assert (Hno : existsb (fun a => has_symbol a var) args = false).
    { destruct (existsb (fun a => has_symbol a var) args) eqn:Hex; [| reflexivity].
      apply existsb_exists in Hex. destruct Hex as (a & Ha & Hs).
      assert (Hin : In a (List.filter (contains var) args))
        by (apply filter_In; split; assumption).
      rewrite Hf in Hin. destruct Hin. }
    cbn [integrate_basic has_symbol]. rewrite Hno. reflexivity.
  - assert (Hd : In d args /\ contains var d = true).
    { apply filter_In. rewrite Hf. left. reflexivity. }
    assert (Hyes : existsb (fun a => has_symbol a var) args = true).
    { apply existsb_exists. exists d. exact Hd. }
    destruct ds as [| d' ds].
    + assert (Hlt : (height d < f)%nat).
      { pose proof (height_In d args (proj1 Hd)). cbn [height] in Hh. lia. }
      destruct (integrate_basic_fuel var f d Hlt) as [_ Hst].
      rewrite (Hst (S f)) by lia.
      cbn [integrate_basic has_symbol]. rewrite Hyes. cbn [negb].
      rewrite integrate_mul_cases, Hf. reflexivity.
    + cbn [integrate_basic has_symbol]. rewrite Hyes. cbn [negb].
      rewrite integrate_mul_cases, Hf. reflexivity.
Qed.

(** The bound [integrate] passes is enough: it always has an outcome. *)
Lemma integrate_total (expr var : string) :
  exists r, integrate expr var = Some r.
Proof.
  unfold integrate. destruct (parse_expression expr) as [parsed | ex];
    [| eexists; reflexivity].
  destruct (proj1 (integrate_basic_fuel var (S (height parsed)) parsed
                     (Nat.lt_succ_diag_r _))) as [r ->].
  eexists. reflexivity.
Qed.

End IntegratorFacts.

Lemma integrate_power_rule_witness :
  Symbolic.integrate_basic (H := Sample.engine) 1 (Pow (Symbol "x") (Integer 2)) "x" =
    Some (Return (Sample.div (Pow (Symbol "x") (Integer 3)) (Integer 3)))
  /\ Symbolic.integrate_basic (H := Sample.engine) 1 (Symbol "x") "x" =
       Some (Return (Sample.div (Pow (Symbol "x") (Integer 2)) (Integer 2)))
  /\ Symbolic.integrate (H := Sample.engine) "x" "x" = Some (Return "(1/2)*x**2").
Proof.
  apply (integrate_power_rule (H := Sample.engine) "x" 2 0).
  - intros i j. reflexivity.
  - reflexivity.
Defined.

Lemma integrate_mul_partition_witness :
  (exists r, Symbolic.integrate_basic (H := Sample.engine) 2
               (Mul [Integer 3; Symbol "x"]) "x" = Some r)
  /\ Symbolic.integrate_basic (H := Sample.engine) 2 (Mul [Integer 3; Symbol "x"]) "x" =
       Some (Return (Mul [Integer 3;
                          Sample.div (Pow (Symbol "x") (Integer 2)) (Integer 2)])).
Proof.
  apply (integrate_mul_partition (H := Sample.engine) [Integer 3; Symbol "x"] "x" 2).
  cbn. lia.
Defined.

Lemma diff_parse_failure_is_SymbolicError_witness :
  Symbolic.diff (H := Sample.engine) "" "x" =
    Throw (SymbolicError "Parsing Unsuccessful")
  /\ forall e, Symbolic.diff (H := Sample.engine) "" "x" = Throw e ->
               is_kind KParse e = false.
Proof.
  apply (diff_parse_failure_is_SymbolicError (H := Sample.engine) "" "x"
           Sample.parse_failure).
  reflexivity.
Defined.

Lemma verify_equal_zero_test_witness :
  Symbolic.verify_equal (H := Sample.engine) 3 7 "x + x" "2*x" 100 = Return true
  /\ Symbolic.verify_equal (H := Sample.engine) 3 7 "x^2" "x^3" 100 = Return false.
Proof.
  destruct (verify_equal_zero_test (H := Sample.engine) 3 7
              [Pow Sample.x (Integer 2);
               Mul [minus_one; Pow Sample.x (Integer 3)]])
    as (Hverdicts & _); try reflexivity.
  apply Hverdicts; reflexivity.
Defined.

(** C5 as stated fails: whatever SymEngine does, when the first reading of
    the clock is 101 ms [verify_equal("x + x", "2*x", 100)] does not
    return; on the sample platform it throws the timeout. *)
Lemma verify_equal_not_within_100ms :
  Symbolic.verify_equal (H := Sample.engine) 101 0 "x + x" "2*x" 100
  = Throw (VerifierError "Verification timeout exceeded")
  /\ ~ (exists (E : Engine) (elapsed2 : Z) (b : bool),
          Symbolic.verify_equal (H := E) 101 elapsed2 "x + x" "2*x" 100
          = Return b).
Proof.
  split; [vm_compute; reflexivity |].
  intros (E & elapsed2 & b & Heq).
  assert (Hlate : Convert.gt (Convert.to_double 101) 100 = true)
    by (vm_compute; reflexivity).
  unfold Symbolic.verify_equal, Symbolic.parse_expression in Heq.
  rewrite Hlate in Heq.
  destruct (parse "x + x") as [l | ex]; cbn [bind try_catch] in Heq.
  - destruct (parse "2*x") as [r | ex]; cbn [bind try_catch] in Heq.
    + discriminate.
    + destruct (is_kind KVerifier ex); discriminate.
  - destruct (is_kind KVerifier ex); discriminate.
Qed.

(** ** Random-probe verifier *)

Section NumericFacts.
Import Numeric.
Context `{Engine} `{Libm} `{Random}.

(** The loops of [bvisit(const Add&)] and [bvisit(const Mul&)] throw what an
    argument throws and nothing else. *)
Lemma fold_accept_throws (K : exn -> Prop) (visit : Basic -> result float)
    (op : float -> float -> float) (args : list Basic) :
  Forall (fun a => forall e, visit a = Throw e -> K e) args ->
  forall acc e,
    (forall e', acc = Throw e' -> K e') ->
    fold_left
      (fun acc arg =>
         bind acc (fun prev => bind (visit arg) (fun result =>
         Return (op prev result))))
      args acc = Throw e ->
    K e.
Proof.
  induction 1 as [| a args Ha _ IH]; intros acc e Hacc; cbn [fold_left].
  - apply Hacc.
  - apply IH. intros e'. destruct acc as [p | e0]; cbn [bind].
    + destruct (visit a) as [r | e1] eqn:Hv; cbn [bind]; [discriminate |].
      intros [= <-]. apply Ha. reflexivity.
    + exact (Hacc e').
Qed.

(** [NumericEvaluator] throws [NumericError] and nothing else, so the
    [catch (const NumericError&)] of the trial loop sees every exception of
    an evaluation. *)
Lemma accept_throws_NumericError (values : gmap string float) (x : Basic) :
  forall e, accept values x = Throw e -> is_kind KNumeric e = true.
Proof.
  induction x as [i | n d | d | s | s | args IH | args IH | b ex IHb IHe
                 | a IH | a IH | a IH | a IH | f args IH] using Basic_args_ind;
    intros e; cbn [accept]; try discriminate.
  - unfold bvisit_Symbol. destruct (values !! s); [discriminate |].
    intros [= <-]. reflexivity.
  - intros [= <-]. reflexivity.
  - apply (fold_accept_throws _ _ _ _ IH). discriminate.
  - apply (fold_accept_throws _ _ _ _ IH). discriminate.
  - unfold bvisit_Pow.
    destruct (accept values b) as [vb | eb] eqn:Hb; cbn [bind].
    + destruct (accept values ex) as [ve | ee] eqn:He; cbn [bind]; [discriminate |].
      intros [= <-]. apply IHe. reflexivity.
    + intros [= <-]. apply IHb. reflexivity.
  - unfold bvisit_function. destruct (accept values a) eqn:Ha; cbn [bind];
      [discriminate | intros [= <-]; apply IH; reflexivity].
  - unfold bvisit_function. destruct (accept values a) eqn:Ha; cbn [bind];
      [discriminate | intros [= <-]; apply IH; reflexivity].
  - unfold bvisit_function. destruct (accept values a) eqn:Ha; cbn [bind];
      [discriminate | intros [= <-]; apply IH; reflexivity].
  - unfold bvisit_function. destruct (accept values a) eqn:Ha; cbn [bind];
      [discriminate | intros [= <-]; apply IH; reflexivity].
  - intros [= <-]. reflexivity.
Qed.

Lemma run_trial_outcome (lhs rhs : Basic) (symbols : list string)
    (domain_min domain_max threshold : float) (st : probe_state) :
  run_trial lhs rhs symbols domain_min domain_max threshold st =
    let '(point, rng) := draw_point symbols domain_min domain_max (st_rng st) in
    let '(err, failed) := trial_outcome lhs rhs point threshold in
    Return (mkProbeState rng (st_failures st + failed) (st_max_errors st ++ [err])).
Proof.
  unfold run_trial, trial_outcome.
  destruct (draw_point symbols domain_min domain_max (st_rng st)) as [point rng].
  destruct (evaluate_at_point lhs point) as [l | el] eqn:Hl; cbn [bind].
  - destruct (evaluate_at_point rhs point) as [r | er] eqn:Hr; cbn [bind].
    + destruct (isfinite l), (isfinite r); cbn [negb orb andb];
        try reflexivity.
      unfold trial_error. cbv zeta.
      destruct (gt _ threshold); [reflexivity |].
      rewrite Z.add_0_r. reflexivity.
    + rewrite (accept_throws_NumericError point rhs er Hr). reflexivity.
  - rewrite (accept_throws_NumericError point lhs el Hl). reflexivity.
Qed.

Lemma trial_loop_records (lhs rhs : Basic) (symbols : list string)
    (domain_min domain_max threshold : float) (n : nat) :
  forall st, exists st',
    trial_loop n lhs rhs symbols domain_min domain_max threshold st = Return st'
    /\ let recorded :=
         outcomes lhs rhs threshold
           (sample_points n symbols domain_min domain_max (st_rng st)) in
       st_max_errors st' = (st_max_errors st ++ map fst recorded)%list
       /\ st_failures st' = st_failures st + fold_right Z.add 0 (map snd recorded).
Proof.
  induction n as [| n IH]; intros st; cbn [trial_loop sample_points].
  - exists st. cbn. rewrite app_nil_r, Z.add_0_r. auto.
  - rewrite run_trial_outcome.
    destruct (draw_point symbols domain_min domain_max (st_rng st)) as [point rng].
    destruct (trial_outcome lhs rhs point threshold) as [err failed] eqn:Hout.
    cbn [bind].
    destruct (IH (mkProbeState rng (st_failures st + failed)
                    (st_max_errors st ++ [err]))) as (st' & Hrun & Herr & Hfail).
    exists st'. split; [exact Hrun |].
    cbn [st_rng st_failures st_max_errors] in Herr, Hfail.
    unfold outcomes in *. cbn [map fold_right]. rewrite Hout. cbn [fst snd].
    rewrite Herr, Hfail, <- app_assoc. split; [reflexivity | lia].
Qed.

Lemma sample_points_length (n : nat) (symbols : list string)
    (domain_min domain_max : float) :
  forall rng,
    List.length (sample_points n symbols domain_min domain_max rng) = n.
Proof.
  induction n as [| n IH]; intros rng; cbn [sample_points]; [reflexivity |].
  destruct (draw_point symbols domain_min domain_max rng) as [point rng'].
  cbn [List.length]. rewrite IH. reflexivity.
Qed.



End NumericFacts.

(** ** Runge-Kutta driver *)

Section ODEFacts.
Import ODE.
Context `{Engine}.

(** C10.  When [t1 <= t0], or [y0] is empty, or [symbols] is empty, or
    [max_steps <= 0], [solve_ivp] returns normally, with [success = false],
    [steps_taken = 0], no recorded point, and the message of the first of
    the four checks that fails. *)
Theorem solve_ivp_rejects_invalid_input (expr : string) (t0 t1 : float)
    (y0 : list float) (symbols : list string) (rtol atol : float) (max_steps : Z) :
  PrimFloat.leb t1 t0 = true \/ y0 = [] \/ symbols = [] \/ max_steps <= 0 ->
  exists msg,
    solve_ivp expr t0 t1 y0 symbols rtol atol max_steps =
      Return (mkODEResult false [] [] 0 msg)
    /\ ((msg = "t1 must be greater than t0" /\ PrimFloat.leb t1 t0 = true)
        \/ (msg = "Initial conditions y0 cannot be empty" /\ y0 = [])
        \/ (msg = "Symbols list cannot be empty" /\ symbols = [])
        \/ (msg = "max_steps must be positive" /\ max_steps <= 0)).
Proof.
  intros Hinvalid. unfold solve_ivp.
  destruct (PrimFloat.leb t1 t0) eqn:Ht.
  { eexists. split; [reflexivity | left; split; reflexivity]. }
  destruct y0 as [| y y0].
  { eexists. split; [reflexivity | right; left; split; reflexivity]. }
  destruct symbols as [| s symbols].
  { eexists. split; [reflexivity | right; right; left; split; reflexivity]. }
  cbn [List.length Nat.eqb].
  destruct (max_steps <=? 0) eqn:Hm.
  { apply Z.leb_le in Hm. eexists.
    split; [reflexivity | right; right; right; split; [reflexivity | exact Hm]]. }
  apply Z.leb_gt in Hm.
  destruct Hinvalid as [Hi | [Hi | [Hi | Hi]]]; [discriminate.. | lia].
Qed.





(** The loop as a Hoare triple: an invariant of the state between two
    iterations, kept by a step that does not explode, gives a postcondition
    of whatever the loop returns. *)
Lemma rk4_loop_invariant (evaluator : float -> list float -> result (list float))
    (h t1 : float) (Inv : float -> ODEResult -> Prop) (Post : ODEResult -> Prop) :
  (forall t r, Inv t r -> Post (finish r)) ->
  (forall t r msg, Inv t r -> Post (set_message msg r)) ->
  (forall t r,
      Inv t r ->
      Post (set_success false
              (set_message "Solution exploded (exceeded threshold)" (incr_steps r)))) ->
  (forall t y r,
      Inv t r -> exploded y = false ->
      Inv (t + h)%float (push_back (t + h)%float y (incr_steps r))) ->
  forall n t y r r',
    Inv t r -> rk4_loop evaluator h n t1 t y r = Return r' -> Post r'.
Proof.
  intros Hfinish Hcatch Hexploded Hstep.
  induction n as [| n IH]; intros t y r r' Hinv; cbn [rk4_loop].
  - intros [= <-]. eapply Hfinish, Hinv.
  - destruct (rk4_step evaluator h t y) as [y' | e].
    + destruct (exploded y') eqn:Hex.
      * intros [= <-]. eapply Hexploded, Hinv.
      * specialize (Hstep t y' r Hinv Hex).
        destruct (ge _ _).
        -- intros [= <-]. eapply Hfinish, Hstep.
        -- apply (IH _ _ _ _ Hstep).
    + destruct (is_kind KODE e); [| discriminate].
      intros [= <-]. eapply Hcatch, Hinv.
Qed.

(** What [solve_ivp] returns is a rejection of its arguments or what the
    loop returns from the initial point. *)
Lemma solve_ivp_Return (expr : string) (t0 t1 : float) (y0 : list float)
    (symbols : list string) (rtol atol : float) (max_steps : Z) (r : ODEResult) :
  solve_ivp expr t0 t1 y0 symbols rtol atol max_steps = Return r ->
  (success r = false /\ t_values r = [] /\ y_values r = [] /\ steps_taken r = 0)
  \/ exists parsed,
       rk4_loop (evaluate parsed symbols) ((t1 - t0) / to_double max_steps)%float
         (Z.to_nat max_steps) t1 t0 y0 (mkODEResult false [t0] [y0] 0 "") = Return r.
Proof.
  unfold solve_ivp.
  destruct (PrimFloat.leb t1 t0); [intros [= <-]; left; auto |].
  destruct (Nat.eqb (List.length y0) 0); [intros [= <-]; left; auto |].
  destruct (Nat.eqb (List.length symbols) 0); [intros [= <-]; left; auto |].
  destruct (max_steps <=? 0); [intros [= <-]; left; auto |].
  destruct (parse expr) as [parsed | e]; cbn [bind try_catch].
  - intros Hrun. right. exists parsed.
    destruct (rk4_loop _ _ _ _ _ _ _) as [r0 | e]; cbn [try_catch] in Hrun.
    + exact Hrun.
    + destruct (is_symengine_parse_error e); discriminate.
  - destruct (is_symengine_parse_error e); discriminate.
Qed.

Lemma adjacent_snoc (R : float -> float -> Prop) (pre : list float) (a b : float) :
  adjacent R (pre ++ [a])%list -> R a b -> adjacent R ((pre ++ [a]) ++ [b])%list.
Proof.
  induction pre as [| x pre IH]; cbn [app adjacent]; [tauto |].
  destruct pre as [| x' pre]; cbn [app adjacent] in *; tauto.
Qed.

Lemma adjacent_impl (R Q : float -> float -> Prop) (l : list float) :
  (forall a b, In a l -> R a b -> Q a b) -> adjacent R l -> adjacent Q l.
Proof.
  induction l as [| a l IH]; [intros; exact I |].
  destruct l as [| b l]; [intros; exact I |].
  intros HRQ [Hab Htl]. split.
  - apply HRQ; [left; reflexivity | exact Hab].
  - apply IH; [| exact Htl]. intros x y Hx. apply HRQ. right. exact Hx.
Qed.

Lemma rk4_loop_recorded (evaluator : float -> list float -> result (list float))
    (h t1 : float) (n : nat) (t : float) (y : list float) (r r' : ODEResult) :
  recording h t r ->
  rk4_loop evaluator h n t1 t y r = Return r' ->
  recorded h r'.
Proof.
  apply (rk4_loop_invariant evaluator h t1 (recording h) (recorded h)).
  - intros t' r0 (_ & Hlen & Hsteps & Hby & _) _. cbn. auto.
  - intros t' r0 msg (Hs & _) Hs'. cbn in Hs'. congruence.
  - intros t' r0 _ Hs'. cbn in Hs'. discriminate.
  - intros t' y' r0 (Hs & Hlen & Hsteps & Hby & pre & Hpre) _.
    unfold recording. cbn [success t_values y_values steps_taken push_back incr_steps].
    rewrite !length_app, Hlen. cbn [List.length].
    repeat split; [exact Hs | | | eexists; reflexivity].
    + rewrite <- Hlen. lia.
    + unfold steps_by in *. rewrite Hpre in *.
      apply adjacent_snoc; [exact Hby | reflexivity].
Qed.

(** C9, as the code has it.  When [solve_ivp] returns [success = true], it
    has recorded as many times as states, one more than [steps_taken], and
    each recorded time is the one before it plus
    [h = (t1 - t0) / max_steps] in double arithmetic; the times are strictly
    increasing when adding [h] to each of them gives a larger double. *)
Theorem solve_ivp_recorded_points (expr : string) (t0 t1 : float)
    (y0 : list float) (symbols : list string) (rtol atol : float)
    (max_steps : Z) (r : ODEResult) :
  solve_ivp expr t0 t1 y0 symbols rtol atol max_steps = Return r ->
  success r = true ->
  let h := ((t1 - t0) / to_double max_steps)%float in
  List.length (t_values r) = List.length (y_values r)
  /\ Z.of_nat (List.length (t_values r)) = steps_taken r + 1
  /\ steps_by h (t_values r)
  /\ ((forall a, In a (t_values r) -> PrimFloat.ltb a (a + h) = true) ->
      strictly_increasing (t_values r)).
Proof.
  intros Hrun Hsuccess h.
  destruct (solve_ivp_Return _ _ _ _ _ _ _ _ _ Hrun) as [(Hs & _) | (parsed & Hloop)];
    [congruence |].
  assert (Hrec : recorded h r).
  { apply (rk4_loop_recorded _ _ _ _ _ _ _ _) with (2 := Hloop).
    unfold recording. cbn. repeat split. exists []. reflexivity. }
  destruct (Hrec Hsuccess) as (Hlen & Hsteps & Hby).
  repeat split; try assumption.
  intros Hstrict. unfold strictly_increasing.
  apply (adjacent_impl (fun a b => b = (a + h)%float)); [| exact Hby].
  intros a b Ha ->. apply Hstrict, Ha.
Qed.

End ODEFacts.

Section ExplosionFacts.
Import ODE.
Context `{Engine}.





End ExplosionFacts.

(** C9 as stated fails: over [[1e16, 1e16 + 2]] in four steps, [h = 0.5]
    is absorbed by every addition [t + h], the call succeeds, and the five
    recorded times are all [1e16]. *)
Lemma solve_ivp_times_not_increasing :
  exists r,
    ODE.solve_ivp (H := Sample.engine) "0" 1e16 10000000000000002 [1%float]
      ["t"; "y"] 1e-6 1e-8 4 = Return r
    /\ ODE.success r = true
    /\ ODE.t_values r = [1e16; 1e16; 1e16; 1e16; 1e16]%float
    /\ ~ ODE.strictly_increasing (ODE.t_values r).
Proof.
  eexists. split; [vm_compute; reflexivity |].
  repeat split. intros [Hlt _]. vm_compute in Hlt. discriminate.
Qed.


Lemma solve_ivp_recorded_points_witness :
  let r := ODE.mkODEResult true [0; 0.25; 0.5; 0.75; 1]%float
             [[1]; [1]; [1]; [1]; [1]]%float 4
             "Integration completed successfully" in
  List.length (ODE.t_values r) = List.length (ODE.y_values r)
  /\ Z.of_nat (List.length (ODE.t_values r)) = ODE.steps_taken r + 1
  /\ ODE.steps_by 0.25 (ODE.t_values r)
  /\ ((forall a, In a (ODE.t_values r) -> PrimFloat.ltb a (a + 0.25) = true) ->
      ODE.strictly_increasing (ODE.t_values r)).
Proof.
  apply (solve_ivp_recorded_points (H := Sample.engine) "0" 0 1 [1%float]
           ["t"; "y"] 1e-6 1e-8 4).
  - vm_compute. reflexivity.
  - reflexivity.
Defined.

Lemma solve_ivp_rejects_invalid_input_witness :
  exists msg,
    ODE.solve_ivp (H := Sample.engine) "x" 1 0 [1%float] ["t"; "y"] 1e-6 1e-8 1000 =
      Return (ODE.mkODEResult false [] [] 0 msg)
    /\ ((msg = "t1 must be greater than t0" /\ PrimFloat.leb 0 1 = true)
        \/ (msg = "Initial conditions y0 cannot be empty" /\ [1%float] = [])
        \/ (msg = "Symbols list cannot be empty" /\ ["t"; "y"] = [])
        \/ (msg = "max_steps must be positive" /\ 1000 <= 0)).
Proof.
  apply (solve_ivp_rejects_invalid_input (H := Sample.engine) "x" 1 0 [1%float]
           ["t"; "y"] 1e-6 1e-8 1000).
  left. reflexivity.
Defined.

(** * Further properties *)

(** ** [Dimension] *)

Section DimensionFacts.
Import Units DimensionOps.

Lemma wrap_int_range (z : Z) : - 2^31 <= wrap_int z < 2^31.
Proof. unfold wrap_int. pose proof (Z.mod_pos_bound (z + 2^31) (2^32)). lia. Qed.

Lemma wrap_int_small (z : Z) : - 2^31 <= z < 2^31 -> wrap_int z = z.
Proof. intros Hz. unfold wrap_int. rewrite Z.mod_small; lia. Qed.

(** Wrapping an intermediate result does not change the wrapped sum. *)
Lemma wrap_int_add_sub (a b : Z) :
  - 2^31 <= a < 2^31 -> wrap_int (wrap_int (a + b) - b) = a.
Proof.
  intros Ha. unfold wrap_int.
  replace ((a + b + 2^31) mod 2^32 - 2^31 - b + 2^31)
    with ((a + b + 2^31) mod 2^32 - b) by lia.
  rewrite Zminus_mod_idemp_l.
  replace (a + b + 2^31 - b) with (a + 2^31) by lia.
  rewrite Z.mod_small; lia.
Qed.

(** [operator==] compares all seven exponents: it decides equality,
    [operator!=] is its negation, and [is_dimensionless] is equality with
    [Dimension()]. *)
Theorem dimension_equality (a b : Dimension) :
  (dim_eqb a b = true <-> a = b)
  /\ (dim_neqb a b = true <-> a <> b)
  /\ (is_dimensionless a = true <-> a = dimensionless).
Proof.
  assert (Heq : forall x y, dim_eqb x y = true <-> x = y).
  { intros [l m t c k n j] [l' m' t' c' k' n' j']. unfold dim_eqb. cbn.
    rewrite !andb_true_iff, !Z.eqb_eq. split.
    - intros [[[[[[-> ->] ->] ->] ->] ->] ->]. reflexivity.
    - intros [= -> -> -> -> -> -> ->]. repeat split. }
  split; [apply Heq | split].
  - unfold dim_neqb. rewrite negb_true_iff, <- not_true_iff_false, Heq. tauto.
  - destruct a as [l m t c k n j]. unfold is_dimensionless, dimensionless. cbn.
    rewrite !andb_true_iff, !Z.eqb_eq. split.
    + intros [[[[[[-> ->] ->] ->] ->] ->] ->]. reflexivity.
    + intros [= -> -> -> -> -> -> ->]. repeat split.
Qed.

(** On exponents that are [int]s: [operator+] is commutative with
    [Dimension()] as its neutral element, [operator-] undoes it, scaling by
    1 changes nothing, and a sum is again in range. *)
Theorem dimension_arithmetic (a b : Dimension) :
  in_range a ->
  dim_add a b = dim_add b a
  /\ dim_add a dimensionless = a
  /\ dim_sub (dim_add a b) b = a
  /\ dim_scale a 1 = a
  /\ in_range (dim_add a b).
Proof.
  destruct a as [l m t c k n j], b as [l' m' t' c' k' n' j'].
  unfold in_range, dim_add, dim_sub, dim_scale, dimensionless. cbn.
  intros (Hl & Hm & Ht & Hc & Hk & Hn & Hj).
  split; [f_equal; f_equal; apply Z.add_comm |].
  split; [rewrite !Z.add_0_r, !wrap_int_small by assumption; reflexivity |].
  split; [rewrite !wrap_int_add_sub by assumption; reflexivity |].
  split; [rewrite !Z.mul_1_r, !wrap_int_small by assumption; reflexivity |].
  repeat split; apply wrap_int_range.
Qed.

End DimensionFacts.

Section DimensionText.
Import Units DimensionOps.

Lemma append_assoc (a b c : string) : (a +:+ b) +:+ c = a +:+ (b +:+ c).
Proof.
  induction a as [| x a IH]; [reflexivity |].
  change (String x ((a +:+ b) +:+ c) = String x (a +:+ (b +:+ c))).
  rewrite IH. reflexivity.
Qed.

Lemma append_nil_r (a : string) : a +:+ "" = a.
Proof.
  induction a as [| x a IH]; [reflexivity |].
  change (String x (a +:+ "") = String x a). rewrite IH. reflexivity.
Qed.

(** The seven calls of [append_dim] as a loop over the named exponents. *)
Lemma append_dim_loop (l : list (string * Z)) :
  forall oss first,
    fold_left (fun st np => append_dim (fst np) (snd np) st) l (oss, first) =
      (oss +:+ (if first then ""
                else match List.filter nonzero l with [] => "" | _ => " " end)
           +:+ String.concat " " (map factor_text (List.filter nonzero l)),
       first && match List.filter nonzero l with [] => true | _ => false end).
Proof.
  induction l as [| [name p] l IH]; intros oss first.
  - destruct first; cbn [fold_left List.filter map String.concat andb];
      rewrite ?append_nil_r; reflexivity.
  - cbn [fold_left List.filter fst snd].
    assert (Hnz : nonzero (name, p) = negb (p =? 0)) by reflexivity.
    rewrite !Hnz. unfold append_dim at 2.
    destruct (p =? 0) eqn:Hp; cbn [negb]; [apply IH |].
    rewrite IH. cbn [map factor_text]. rewrite andb_false_r.
    destruct first, (p =? 1), (List.filter nonzero l) as [| np printed];
      cbn [negb map String.concat andb];
      rewrite ?append_assoc, ?append_nil_r; reflexivity.
Qed.

Lemma nonzero_head (d : Dimension) :
  is_dimensionless d = false ->
  exists c name p printed,
    List.filter nonzero (named_powers d) = (String c name, p) :: printed
    /\ c <> Ascii.ascii_of_nat 100.
Proof.
  destruct d as [l m t c k n j]. unfold is_dimensionless, named_powers, nonzero.
  cbn [length mass time current temperature amount luminosity List.filter snd].
  destruct (l =? 0); [| intros _; do 4 eexists; split; [reflexivity | discriminate]].
  destruct (m =? 0); [| intros _; do 4 eexists; split; [reflexivity | discriminate]].
  destruct (t =? 0); [| intros _; do 4 eexists; split; [reflexivity | discriminate]].
  destruct (c =? 0); [| intros _; do 4 eexists; split; [reflexivity | discriminate]].
  destruct (k =? 0); [| intros _; do 4 eexists; split; [reflexivity | discriminate]].
  destruct (n =? 0); [| intros _; do 4 eexists; split; [reflexivity | discriminate]].
  destruct (j =? 0); [| intros _; do 4 eexists; split; [reflexivity | discriminate]].
  discriminate.
Qed.

(** [Dimension::to_string] prints [dimensionless] for the zero vector and
    for no other dimension; otherwise it prints the non-zero exponents in
    the order L, M, T, A, K, mol, cd, separated by single spaces, each as
    its name followed by [^] and the decimal exponent unless that is 1. *)
Theorem to_string_text (d : Dimension) :
  to_string d =
    (if is_dimensionless d then "dimensionless"
     else String.concat " "
            (map factor_text (List.filter nonzero (named_powers d))))
  /\ (to_string d = "dimensionless" <-> is_dimensionless d = true).
Proof.
  assert (Htext : to_string d =
            if is_dimensionless d then "dimensionless"
            else String.concat " "
                   (map factor_text (List.filter nonzero (named_powers d)))).
  { unfold to_string. destruct (is_dimensionless d); [reflexivity |].
    change (fst (fold_left (fun st np => append_dim (fst np) (snd np) st)
                   (named_powers d) ("", true)) =
            String.concat " "
              (map factor_text (List.filter nonzero (named_powers d)))).
    rewrite append_dim_loop. reflexivity. }
  split; [exact Htext |].
  rewrite Htext. destruct (is_dimensionless d) eqn:Hd; [tauto |].
  split; [| discriminate].
  destruct (nonzero_head d Hd) as (c & name & p & printed & -> & Hc).
  cbn [map factor_text]. intros Heq. exfalso. apply Hc.
  destruct (p =? 1), (map factor_text printed);
    lazy [String.concat String.append] in Heq;
    injection Heq as Hhead _; rewrite Hhead; reflexivity.
Qed.

End DimensionText.

(** ** The dimension visitor *)

Section VisitorFacts.
Import Units Diagnostics.
Variable dims : gmap string Dimension.

Lemma extend_assoc (c d e : DimensionChecker) :
  extend (extend c d) e = extend c (extend d e).
Proof. unfold extend. cbn. rewrite !app_assoc. reflexivity. Qed.

Lemma extend_set_result (r : Dimension) (c d : DimensionChecker) :
  set_result r (extend c d) = extend c (set_result r d).
Proof. reflexivity. Qed.

Lemma extend_push_error (msg : string) (c d : DimensionChecker) :
  push_error msg (extend c d) = extend c (push_error msg d).
Proof. unfold extend, push_error. cbn. rewrite app_assoc. reflexivity. Qed.

Lemma extend_push_warning (msg : string) (c d : DimensionChecker) :
  push_warning msg (extend c d) = extend c (push_warning msg d).
Proof. unfold extend, push_warning. cbn. rewrite app_assoc. reflexivity. Qed.

Lemma extend_empty (c : DimensionChecker) :
  extend c (mkChecker (result c) [] []) = c.
Proof. destruct c. unfold extend. cbn. rewrite !app_nil_r. reflexivity. Qed.

Lemma bvisit_Add_loop_commutes (first_dim : Dimension) (rest : list Basic) :
  Forall (commutes dims) rest ->
  forall c d,
    (fix loop (rest : list Basic) (c : DimensionChecker) : DimensionChecker :=
       match rest with
       | [] => set_result first_dim c
       | arg :: rest' =>
           let c := accept dims arg c in
           if negb (dim_eqb (result c) first_dim) then
             set_result dimensionless
               (push_error "Addition/subtraction requires matching dimensions" c)
           else loop rest' c
       end) rest (extend c d)
    = extend c
        ((fix loop (rest : list Basic) (c : DimensionChecker) : DimensionChecker :=
            match rest with
            | [] => set_result first_dim c
            | arg :: rest' =>
                let c := accept dims arg c in
                if negb (dim_eqb (result c) first_dim) then
                  set_result dimensionless
                    (push_error "Addition/subtraction requires matching dimensions" c)
                else loop rest' c
            end) rest d).
Proof.
  induction 1 as [| a rest Ha _ IH]; intros c d; [reflexivity |].
  cbv zeta. rewrite !(Ha c d). cbn [result extend].
  destruct (negb (dim_eqb (result (accept dims a d)) first_dim)).
  - rewrite extend_push_error. reflexivity.
  - apply IH.
Qed.

Lemma bvisit_Mul_loop_commutes (args : list Basic) :
  Forall (commutes dims) args ->
  forall c d,
    fold_left
      (fun c arg =>
         let c := accept dims arg c in
         set_result (dim_add (result c) (result c)) c)
      args (extend c d)
    = extend c
        (fold_left
           (fun c arg =>
              let c := accept dims arg c in
              set_result (dim_add (result c) (result c)) c)
           args d).
Proof.
  induction 1 as [| a args Ha _ IH]; intros c d; [reflexivity |].
  cbn [fold_left]. cbv zeta. rewrite !(Ha c d). cbn [result extend].
  rewrite <- IH. reflexivity.
Qed.

Lemma accept_commutes (x : Basic) : commutes dims x.
Proof.
  induction x as [i | n d | d | s | s | args IH | args IH | b ex IHb IHe
                 | a IH | a IH | a IH | a IH | f args IH] using Basic_args_ind;
    intros c d0; cbn [accept]; try reflexivity.
  - unfold bvisit_Symbol. destruct (dims !! s); [reflexivity |].
    rewrite extend_push_warning. reflexivity.
  - unfold bvisit_Basic. rewrite extend_push_warning. reflexivity.
  - unfold bvisit_Add. destruct IH as [| a args Ha Hargs]; [reflexivity |].
    cbv zeta. rewrite !(Ha c d0). cbn [result extend].
    apply bvisit_Add_loop_commutes. exact Hargs.
  - unfold bvisit_Mul. rewrite extend_set_result.
    apply bvisit_Mul_loop_commutes. exact IH.
  - unfold bvisit_Pow. cbv zeta. rewrite !(IHb c d0), !(IHe c). cbn [result extend].
    destruct (negb (is_dimensionless _)); [rewrite extend_push_error; reflexivity |].
    destruct ex; try (destruct (negb (is_dimensionless _));
                      rewrite ?extend_push_error, ?extend_push_warning; reflexivity).
    reflexivity.
  - unfold bvisit_function. cbv zeta. rewrite !(IH c d0). cbn [result extend].
    destruct (negb _); rewrite ?extend_push_error; reflexivity.
  - unfold bvisit_function. cbv zeta. rewrite !(IH c d0). cbn [result extend].
    destruct (negb _); rewrite ?extend_push_error; reflexivity.
  - unfold bvisit_function. cbv zeta. rewrite !(IH c d0). cbn [result extend].
    destruct (negb _); rewrite ?extend_push_error; reflexivity.
  - unfold bvisit_function. cbv zeta. rewrite !(IH c d0). cbn [result extend].
    destruct (negb _); rewrite ?extend_push_error; reflexivity.
  - unfold bvisit_Basic. rewrite extend_push_warning. reflexivity.
Qed.

Lemma accept_forgets (x : Basic) : forgets dims x.
Proof.
  induction x as [i | n d | d | s | s | args IH | args IH | b ex IHb IHe
                 | a IH | a IH | a IH | a IH | f args IH] using Basic_args_ind;
    intros r c; cbn [accept]; try reflexivity.
  - unfold bvisit_Add. destruct IH as [| a args Ha _]; [reflexivity |].
    cbv zeta. rewrite !(Ha r c). reflexivity.
  - unfold bvisit_Pow. cbv zeta. rewrite !(IHb r c). reflexivity.
  - unfold bvisit_function. cbv zeta. rewrite !(IH r c). reflexivity.
  - unfold bvisit_function. cbv zeta. rewrite !(IH r c). reflexivity.
  - unfold bvisit_function. cbv zeta. rewrite !(IH r c). reflexivity.
  - unfold bvisit_function. cbv zeta. rewrite !(IH r c). reflexivity.
Qed.

(** A visit from any checker, by the visit from a fresh one. *)
Lemma accept_from_fresh (x : Basic) (c : DimensionChecker) :
  accept dims x c =
    mkChecker (dimension_of dims x)
      (errors c ++ errors_of dims x) (warnings c ++ warnings_of dims x).
Proof.
  transitivity (extend c (accept dims x (set_result (result c) fresh))).
  - rewrite <- accept_commutes. f_equal. symmetry. apply extend_empty.
  - rewrite accept_forgets. reflexivity.
Qed.

(** A visit of the dimension checker only appends: the errors and the
    warnings recorded before it stay in place, in front of those the visit
    adds, and neither those nor the dimension it infers depend on the state
    of the checker it starts from. *)
Theorem accept_appends (x : Basic) (c : DimensionChecker) :
  accept dims x c =
    mkChecker (dimension_of dims x)
      (errors c ++ errors_of dims x) (warnings c ++ warnings_of dims x).
Proof.
  rewrite <- (extend_empty c) at 1. rewrite accept_commutes.
  change (mkChecker (result c) [] []) with (set_result (result c) fresh).
  rewrite accept_forgets. reflexivity.
Qed.

Lemma bvisit_Add_loop_rule (first_dim : Dimension) (rest : list Basic) :
  forall c,
    let after :=
      (fix loop (rest : list Basic) (c : DimensionChecker) : DimensionChecker :=
         match rest with
         | [] => set_result first_dim c
         | arg :: rest' =>
             let c := accept dims arg c in
             if negb (dim_eqb (result c) first_dim) then
               set_result dimensionless
                 (push_error "Addition/subtraction requires matching dimensions" c)
             else loop rest' c
         end) rest c in
    if agree dims first_dim rest then
      after = mkChecker first_dim
                (errors c ++ concat (map (errors_of dims) rest))
                (warnings c ++ concat (map (warnings_of dims) rest))
    else
      result after = dimensionless
      /\ exists before, errors after = (before ++ [mismatch])%list.
Proof.
  induction rest as [| b rest IH]; intros c; cbv zeta.
  - cbn [agree forallb map concat]. rewrite !app_nil_r. reflexivity.
  - rewrite (accept_from_fresh b c). cbn [result agree forallb].
    destruct (dim_eqb (dimension_of dims b) first_dim); cbn [negb andb].
    + specialize (IH (mkChecker (dimension_of dims b)
                        (errors c ++ errors_of dims b)
                        (warnings c ++ warnings_of dims b))).
      cbv zeta in IH. fold (agree dims first_dim rest).
      destruct (agree dims first_dim rest).
      * rewrite IH. cbn [errors warnings map concat].
        rewrite <- !app_assoc. reflexivity.
      * exact IH.
    + split; [reflexivity |]. eexists. reflexivity.
Qed.

(** How the checker composes.  A sum whose terms all have the dimension
    of the first has that dimension and the errors of its terms and no
    other; a sum with a term of another dimension is dimensionless and its
    last error is the mismatch.  An integer power [b^n] has the errors of
    [b] and the dimension of [b] scaled in [int] arithmetic: [n] is
    narrowed to an [int] and each product wraps around, so this is [n]
    times the dimension of [b] only while [n] and the products stay within
    the range of an [int].  An elementary function is dimensionless, with
    the errors of its argument and one more when the argument is not
    dimensionless. *)
Theorem accept_rules (a b : Basic) (rest : list Basic) (n : Z) :
  (if agree dims (dimension_of dims a) rest then
     dimension_of dims (Add (a :: rest)) = dimension_of dims a
     /\ errors_of dims (Add (a :: rest))
        = concat (map (errors_of dims) (a :: rest))
   else
     dimension_of dims (Add (a :: rest)) = dimensionless
     /\ exists before,
          errors_of dims (Add (a :: rest)) = (before ++ [mismatch])%list)
  /\ (dimension_of dims (Pow b (Integer n))
        = dim_scale (dimension_of dims b) (wrap_int n)
      /\ errors_of dims (Pow b (Integer n)) = errors_of dims b
      /\ (- 2^31 <= n < 2^31 ->
          DimensionOps.in_range (DimensionOps.times (dimension_of dims b) n) ->
          dimension_of dims (Pow b (Integer n))
          = DimensionOps.times (dimension_of dims b) n))
  /\ (forall node fname,
        In (node, fname) [(Sin, "sin"); (Cos, "cos"); (Tan, "tan"); (Log, "log")] ->
        dimension_of dims (node a) = dimensionless
        /\ errors_of dims (node a)
           = (errors_of dims a ++ argument_error fname (dimension_of dims a))%list).
Proof.
  split; [| split].
  - unfold dimension_of at 2 4, errors_of at 1 3. cbn [accept]. unfold bvisit_Add.
    cbv zeta. rewrite (accept_from_fresh a fresh). cbn [result].
    pose proof (bvisit_Add_loop_rule (dimension_of dims a) rest
                  (mkChecker (dimension_of dims a)
                     (errors fresh ++ errors_of dims a)
                     (warnings fresh ++ warnings_of dims a))) as Hloop.
    cbv zeta in Hloop.
    destruct (agree dims (dimension_of dims a) rest).
    + rewrite Hloop. cbn. auto.
    + exact Hloop.
  - assert (Hpow : dimension_of dims (Pow b (Integer n))
                   = dim_scale (dimension_of dims b) (wrap_int n)
                   /\ errors_of dims (Pow b (Integer n)) = errors_of dims b).
    { unfold dimension_of at 1, errors_of at 1. cbn [accept]. unfold bvisit_Pow.
      cbv zeta. rewrite (accept_from_fresh b fresh).
      cbn [accept result errors warnings].
      change (is_dimensionless dimensionless) with true. cbn [negb].
      cbn. auto. }
    destruct Hpow as [Hdim Herr]. split; [exact Hdim | split; [exact Herr |]].
    intros Hn (Hl & Hm & Ht & Hc & Hk & Ha & Hj). rewrite Hdim.
    unfold dim_scale, DimensionOps.times in *.
    cbn [length mass time current temperature amount luminosity] in *.
    rewrite (wrap_int_small n Hn).
    rewrite !wrap_int_small by assumption. reflexivity.
  - intros node fname Hin.
    assert (Hnode : accept dims (node a) fresh
                    = bvisit_function (accept dims) fname a fresh).
    { cbn [In] in Hin.
      destruct Hin as [[= <- <-] | [[= <- <-] | [[= <- <-] | [[= <- <-] | []]]]];
        reflexivity. }
    unfold dimension_of at 1, errors_of at 1. rewrite Hnode.
    unfold bvisit_function. cbv zeta. rewrite (accept_from_fresh a fresh).
    cbn [result]. unfold argument_error.
    destruct (is_dimensionless (dimension_of dims a)); cbn;
      rewrite ?app_nil_r; auto.
Qed.

End VisitorFacts.

(** ** The integrator on sums, powers and functions *)

Section IntegratorRules.
Import Symbolic.
Context `{Engine}.

Lemma add_loop_Throw (rec : Basic -> string -> fueled Basic) (v : string)
    (args : list Basic) (e : exn) :
  fold_left (add_step rec v) args (Some (Throw e)) = Some (Throw e).
Proof. induction args as [| a args IH]; cbn; [reflexivity | exact IH]. Qed.

Lemma add_loop_Return (rec : Basic -> string -> fueled Basic) (v : string)
    (args rs : list Basic) :
  Forall2 (fun t r => rec t v = Some (Return r)) args rs ->
  forall acc,
    fold_left (add_step rec v) args (Some (Return acc))
    = Some (Return (fold_left add rs acc)).
Proof.
  induction 1 as [| t r args rs Ht _ IH]; intros acc; [reflexivity |].
  cbn [fold_left]. unfold add_step at 2. cbn [fbind]. rewrite Ht. cbn [fbind].
  apply IH.
Qed.

(** On a sum that contains [var], with enough fuel for its depth: when
    every term integrates, the integral is the integrals of the terms added
    up in order from 0; when a term throws and the terms before it
    integrate, the sum throws the same exception. *)
Theorem integrate_sum (args : list Basic) (var : string) (fuel : nat) :
  (height (Add args) < fuel)%nat ->
  has_symbol (Add args) var = true ->
  (forall rs,
      Forall2 (fun t r => integrate_basic fuel t var = Some (Return r)) args rs ->
      integrate_basic fuel (Add args) var
      = Some (Return (fold_left add rs (Integer 0))))
  /\ (forall before t after rs ex,
      args = (before ++ t :: after)%list ->
      Forall2 (fun t r => integrate_basic fuel t var = Some (Return r)) before rs ->
      integrate_basic fuel t var = Some (Throw ex) ->
      integrate_basic fuel (Add args) var = Some (Throw ex)).
Proof.
  intros Hh Hhas. destruct fuel as [| f]; [lia |].
  assert (Hunfold : integrate_basic (S f) (Add args) var
                    = integrate_add (integrate_basic (S f)) args var).
  { assert (Hstep : integrate_basic (S f) (Add args) var
                      = integrate_add (integrate_basic f) args var).
    { cbn [integrate_basic]. rewrite Hhas. reflexivity. }
    rewrite Hstep. unfold integrate_add.
    apply add_loop_ext. intros t Ht.
    assert (Hlt : (height t < f)%nat).
    { pose proof (height_In t args Ht). cbn [height] in Hh. lia. }
    destruct (integrate_basic_fuel var f t Hlt) as [_ Hst].
    symmetry. apply Hst. lia. }
  rewrite Hunfold. unfold integrate_add. split.
  - intros rs Hall. apply add_loop_Return. exact Hall.
  - intros before t after rs ex -> Hbefore Ht.
    rewrite fold_left_app. rewrite (add_loop_Return _ _ _ _ Hbefore).
    cbn [fold_left]. unfold add_step at 2. cbn [fbind]. rewrite Ht. cbn [fbind].
    apply add_loop_Throw.
Qed.

Lemma eq_Symbol (b : Basic) (v : string) : eq b (Symbol v) = true <-> b = Symbol v.
Proof.
  destruct b; cbn; try (split; [discriminate | discriminate]).
  rewrite String.eqb_eq. split; [intros -> | intros [= ->]]; reflexivity.
Qed.

Lemma eq_Constant (b : Basic) (s : string) : eq b (Constant s) = true <-> b = Constant s.
Proof.
  destruct b; cbn; try (split; [discriminate | discriminate]).
  rewrite String.eqb_eq. split; [intros -> | intros [= ->]]; reflexivity.
Qed.

Lemma eq_Integer (b : Basic) (i : Z) : eq b (Integer i) = true <-> b = Integer i.
Proof.
  destruct b; cbn; try (split; [discriminate | discriminate]).
  rewrite Z.eqb_eq. split; [intros -> | intros [= ->]]; reflexivity.
Qed.

(** [integrate_pow] returns in two cases and no other: the base is the
    constant [E] and the exponent is [var] itself, and the result is the
    power unchanged; or the base is [var] and the exponent an integer
    literal [n], and the result is [log(var)] for [n = -1] and
    [var^(n+1)/(n+1)] otherwise.  Whatever else it is given, a rational or
    symbolic exponent included, it throws
    [SymbolicError("Unsupported integrand")]. *)
Theorem integrate_pow_cases (base exponent : Basic) (var : string) :
  (forall r,
      integrate_pow base exponent var = Return r <->
      (base = E /\ exponent = Symbol var /\ r = pow E (Symbol var))
      \/ (base = Symbol var
          /\ exists n, exponent = Integer n
             /\ r = if n =? -1 then log (Symbol var)
                    else div (pow (Symbol var) (add (Integer n) one))
                           (add (Integer n) one)))
  /\ (forall ex,
      integrate_pow base exponent var = Throw ex ->
      ex = SymbolicError "Unsupported integrand").
Proof.
  unfold integrate_pow, make_symbol.
  destruct (eq base E) eqn:HE.
  - apply eq_Constant in HE. subst base.
    destruct (eq exponent (Symbol var)) eqn:Hv.
    + apply eq_Symbol in Hv. subst exponent. split.
      * intros r. split.
        -- intros [= <-]. left. auto.
        -- intros [(_ & _ & ->) | (Hb & _)]; [reflexivity | discriminate].
      * discriminate.
    + split.
      * intros r. split; [discriminate |].
        intros [(_ & -> & _) | (Hb & _)]; [| discriminate].
        rewrite (proj2 (eq_Symbol _ _) Logic.eq_refl) in Hv. discriminate.
      * intros ex [= <-]. reflexivity.
  - assert (HnE : base <> E).
    { intros ->. cbn in HE. discriminate. }
    destruct (eq base (Symbol var)) eqn:Hb; cbn [negb].
    + apply eq_Symbol in Hb. subst base.
      destruct exponent;
        try (split;
             [intros r; split;
              [discriminate
              | intros [(Hb & _) | (_ & n & Hn & _)]; discriminate]
             | intros ex [= <-]; reflexivity]).
      cbn [eq minus_one]. split.
      * intros r. split.
        -- destruct (i =? -1) eqn:Hi; intros [= <-]; right;
             (split; [reflexivity |]); exists i; rewrite Hi; auto.
        -- intros [(Hb & _) | (_ & n & [= ->] & ->)]; [discriminate |].
           destruct (n =? -1); reflexivity.
      * destruct (i =? -1); discriminate.
    + split.
      * intros r. split; [discriminate |].
        intros [(-> & _) | (-> & _)]; [congruence |].
        rewrite (proj2 (eq_Symbol _ _) Logic.eq_refl) in Hb. discriminate.
      * intros ex [= <-]. reflexivity.
Qed.

(** Of the elementary functions of an argument that contains [var], the
    integrator handles [sin(var)] and [cos(var)] only: [sin(var)] gives
    [-1 * cos(var)], [cos(var)] gives [sin(var)]; a sine or cosine of any
    other argument, and every tangent, logarithm and other function,
    throws [SymbolicError("Unsupported integrand")]. *)
Theorem integrate_function_cases (arg : Basic) (var : string) (fuel : nat) :
  has_symbol arg var = true ->
  integrate_basic (S fuel) (Sin (Symbol var)) var
    = Some (Return (mul minus_one (cos (Symbol var))))
  /\ integrate_basic (S fuel) (Cos (Symbol var)) var
     = Some (Return (sin (Symbol var)))
  /\ (arg <> Symbol var ->
      integrate_basic (S fuel) (Sin arg) var = Some (Throw unsupported)
      /\ integrate_basic (S fuel) (Cos arg) var = Some (Throw unsupported))
  /\ integrate_basic (S fuel) (Tan arg) var = Some (Throw unsupported)
  /\ integrate_basic (S fuel) (Log arg) var = Some (Throw unsupported)
  /\ (forall f args,
      In arg args ->
      integrate_basic (S fuel) (FunctionSymbol f args) var = Some (Throw unsupported)).
Proof.
  intros Hhas.
  assert (Hvar : has_symbol (Symbol var) var = true) by apply String.eqb_refl.
  assert (Hself : eq (Symbol var) (Symbol var) = true) by (apply eq_Symbol; reflexivity).
  cbn [integrate_basic has_symbol] in *. unfold make_symbol.
  rewrite Hvar, Hself, Hhas. cbn [negb].
  repeat split.
  - destruct (eq arg (Symbol var)) eqn:Heq; [| reflexivity].
    apply eq_Symbol in Heq. contradiction.
  - destruct (eq arg (Symbol var)) eqn:Heq; [| reflexivity].
    apply eq_Symbol in Heq. contradiction.
  - intros f args Hin.
    assert (Hex : existsb (fun a => has_symbol a var) args = true).
    { apply existsb_exists. exists arg. split; assumption. }
    rewrite Hex. reflexivity.
Qed.

End IntegratorRules.

(** ** The entry points of [symbolic.cpp] and [verifier.cpp] *)

Section EntryPoints.
Import Symbolic Solving.
Context `{Engine} `{Solver} `{Verifier.Simplifier}.

Lemma is_kind_class (k : kind) (e : exn) :
  is_kind k e = true -> class_of e = MathLLMError k.
Proof.
  unfold is_kind. destruct (class_of e) as [| | | k']; try discriminate.
  destruct k', k; (discriminate || reflexivity).
Qed.

(** Whatever [integrate], [diff] and [solve_equation] throw is a
    [SymbolicError], and whatever [verify_equal] throws is a
    [VerifierError].  An exception of the integrator is wrapped a second
    time: an integrand without a rule surfaces with the message
    [SymbolicError: SymbolicError: Unsupported integrand]. *)
Theorem entry_points_error_kinds :
  (forall expr var e,
      integrate expr var = Some (Throw e) -> class_of e = MathLLMError KSymbolic)
  /\ (forall expr var e,
      Symbolic.diff expr var = Throw e -> class_of e = MathLLMError KSymbolic)
  /\ (forall lhs rhs var e,
      solve_equation lhs rhs var = Throw e -> class_of e = MathLLMError KSymbolic)
  /\ (forall elapsed1 elapsed2 lhs rhs timeout_ms e,
      Symbolic.verify_equal elapsed1 elapsed2 lhs rhs timeout_ms = Throw e ->
      class_of e = MathLLMError KVerifier)
  /\ (forall expr var parsed,
      parse expr = Return parsed ->
      integrate_basic (S (height parsed)) parsed var = Some (Throw unsupported) ->
      exists e,
        integrate expr var = Some (Throw e)
        /\ what e = "SymbolicError: SymbolicError: Unsupported integrand").
Proof.
  split; [| split; [| split; [| split]]].
  - intros expr var e. unfold integrate.
    destruct (parse_expression expr) as [parsed | ex].
    + destruct (integrate_basic _ parsed var) as [r |]; [| discriminate].
      intros Heq. assert (Hr : rethrow_as KSymbolic
                                 (bind r (fun result => Return (to_string result)))
                               = Throw e) by congruence.
      exact (rethrow_as_class _ _ _ Hr).
    + intros [= <-]. reflexivity.
  - intros expr var e. apply rethrow_as_class.
  - intros lhs rhs var e. apply rethrow_as_class.
  - intros elapsed1 elapsed2 lhs rhs timeout_ms e. unfold Symbolic.verify_equal.
    match goal with |- try_catch ?body _ = _ -> _ => destruct body as [b | ex] end;
      cbn [try_catch]; [discriminate |].
    destruct (is_kind KVerifier ex) eqn:Hk; intros [= <-];
      [apply is_kind_class; exact Hk | reflexivity].
  - intros expr var parsed Hparse Hthrow. unfold integrate, parse_expression.
    rewrite Hparse, Hthrow. eexists. split; reflexivity.
Qed.

(** When both sides parse, a reading of the clock above [timeout_ms] at
    either check makes [verify_equal] throw
    [VerifierError("Verification timeout exceeded")], before the zero test
    is consulted; the message is not wrapped a second time.  When the
    parser rejects the left side, [verify_equal] throws a [VerifierError]
    with the parser's message, whatever the clock reads. *)
Theorem verify_equal_timeout (elapsed1 elapsed2 : Z) (lhs rhs : string)
    (timeout_ms : float) :
  (forall l r,
      parse lhs = Return l -> parse rhs = Return r ->
      gt (to_double elapsed1) timeout_ms = true ->
      Symbolic.verify_equal elapsed1 elapsed2 lhs rhs timeout_ms
      = Throw (VerifierError "Verification timeout exceeded"))
  /\ (forall l r s,
      parse lhs = Return l -> parse rhs = Return r ->
      gt (to_double elapsed1) timeout_ms = false ->
      expand (sub l r) = Return s ->
      gt (to_double elapsed2) timeout_ms = true ->
      Symbolic.verify_equal elapsed1 elapsed2 lhs rhs timeout_ms
      = Throw (VerifierError "Verification timeout exceeded"))
  /\ (forall ex,
      parse lhs = Throw ex -> is_kind KVerifier ex = false ->
      Symbolic.verify_equal elapsed1 elapsed2 lhs rhs timeout_ms
      = Throw (VerifierError (what ex))).
Proof.
  unfold Symbolic.verify_equal, parse_expression. repeat split.
  - intros l r -> -> ->. reflexivity.
  - intros l r s -> -> -> Hs. cbn [bind]. rewrite Hs. cbn [bind].
    intros ->. reflexivity.
  - intros ex -> Hk. cbn [bind try_catch]. rewrite Hk. reflexivity.
Qed.

Lemma write_parts_join (suffix : list string) :
  forall done oss,
    write_parts (done ++ suffix) (List.length suffix) (List.length done) oss
    = oss +:+ String.concat ", " suffix.
Proof.
  induction suffix as [| x suffix IH]; intros done oss.
  - cbn [write_parts List.length String.concat]. symmetry. apply append_nil_r.
  - cbn [write_parts List.length]. rewrite nth_middle.
    assert (Hlt : (List.length done + 1 <? List.length (done ++ x :: suffix))%nat
                  = match suffix with [] => false | _ => true end).
    { rewrite length_app. cbn [List.length].
      destruct suffix; [apply Nat.ltb_ge | apply Nat.ltb_lt];
        cbn [List.length]; lia. }
    rewrite Hlt. clear Hlt.
    pose proof (IH (done ++ [x])%list) as IH'.
    rewrite length_app, <- app_assoc in IH'. cbn [List.length app] in IH'.
    rewrite IH'.
    destruct suffix; cbn [String.concat];
      rewrite ?append_assoc, ?append_nil_r; reflexivity.
Qed.

(** [solutions_to_string] renders a finite set as its elements printed in
    the order of the container, separated by a comma and a space, between
    square brackets ([[]] for the empty one), and any other set as SymEngine
    prints it; [solve_equation] returns that rendering of what
    [SymEngine::solve] gives for [lhs - rhs]. *)
Theorem solutions_rendering (lhs rhs var : string) (l r : Basic) :
  parse lhs = Return l ->
  parse rhs = Return r ->
  (forall elements,
      solutions_to_string (FiniteSet elements)
      = "[" +:+ String.concat ", " (map str elements) +:+ "]")
  /\ (forall elements,
      solve (sub l r) var = Return (FiniteSet elements) ->
      solve_equation lhs rhs var
      = Return ("[" +:+ String.concat ", " (map str elements) +:+ "]"))
  /\ (forall printed,
      solve (sub l r) var = Return (OtherSet printed) ->
      solve_equation lhs rhs var = Return printed).
Proof.
  intros Hl Hr.
  assert (Hfinite : forall elements,
             solutions_to_string (FiniteSet elements)
             = "[" +:+ String.concat ", " (map str elements) +:+ "]").
  { intros [| e elements]; [reflexivity |].
    change (solutions_to_string (FiniteSet (e :: elements)))
      with (write_parts ([] ++ map str (e :: elements))
              (List.length (map str (e :: elements)))
              (List.length (@nil string)) "[" +:+ "]").
    rewrite write_parts_join. apply append_assoc. }
  split; [exact Hfinite | split].
  - intros elements Hsolve. unfold solve_equation, parse_expression.
    rewrite Hl, Hr. cbn [bind]. rewrite Hsolve. cbn [bind rethrow_as try_catch].
    rewrite Hfinite. reflexivity.
  - intros printed Hsolve. unfold solve_equation, parse_expression.
    rewrite Hl, Hr. cbn [bind]. rewrite Hsolve. reflexivity.
Qed.

(** The two-argument [verify_equal] of [verifier.cpp] returns [true]
    exactly when both sides parse and [SymEngine::simplify] turns their
    difference into the integer literal 0; everything it throws is a plain
    [std::runtime_error] with the message of the exception it caught. *)
Theorem legacy_verify_equal (lhs rhs : string) :
  (Verifier.verify_equal lhs rhs = Return true <->
   exists l r,
     parse lhs = Return l /\ parse rhs = Return r
     /\ Verifier.simplify (sub l r) = Return (Integer 0))
  /\ (forall e,
      Verifier.verify_equal lhs rhs = Throw e -> class_of e = StdException).
Proof.
  unfold Verifier.verify_equal. split.
  - split.
    + destruct (parse lhs) as [l | ex]; cbn [bind try_catch]; [| discriminate].
      destruct (parse rhs) as [r | ex]; cbn [bind try_catch]; [| discriminate].
      destruct (Verifier.simplify (sub l r)) as [d | ex] eqn:Hd;
        cbn [bind try_catch]; [| discriminate].
      intros [= Heq]. apply eq_Integer in Heq. subst d. eauto.
    + intros (l & r & -> & -> & Hd). cbn [bind]. rewrite Hd. reflexivity.
  - intros e.
    match goal with |- try_catch ?body _ = _ -> _ => destruct body as [b | ex] end;
      cbn [try_catch]; [discriminate |].
    intros [= <-]. reflexivity.
Qed.

End EntryPoints.

(** ** The numeric evaluator and the probe *)

Section EvaluatorFacts.
Import Numeric Evaluable.
Context `{Engine} `{Libm} `{Random}.

(** The loops of [bvisit(const Add&)] and [bvisit(const Mul&)] return when
    every argument does and throw when one throws. *)
Lemma fold_accept_outcome (visit : Basic -> result float)
    (good : Basic -> bool) (op : float -> float -> float) (args : list Basic) :
  Forall (fun a => if good a then exists v, visit a = Return v
                   else exists e, visit a = Throw e) args ->
  forall acc,
    let out :=
      fold_left
        (fun acc arg =>
           bind acc (fun prev => bind (visit arg) (fun result =>
           Return (op prev result))))
        args acc in
    match acc with
    | Return _ => if forallb good args then exists v, out = Return v
                  else exists e, out = Throw e
    | Throw e => out = Throw e
    end.
Proof.
  induction 1 as [| a args Ha _ IH]; intros acc; cbv zeta; cbn [fold_left forallb].
  - destruct acc; eauto.
  - destruct acc as [p | e]; cbn [bind].
    + revert Ha. destruct (good a); cbn [andb]; intros Ha.
      * destruct Ha as [v ->]. cbn [bind]. specialize (IH (Return (op p v))).
        cbv zeta in IH. exact IH.
      * destruct Ha as [e ->]. cbn [bind]. specialize (IH (Throw e)).
        cbv beta iota zeta in IH. exists e. exact IH.
    + specialize (IH (Throw e)). cbv zeta in IH. exact IH.
Qed.

Lemma accept_outcome (values : gmap string float) (x : Basic) :
  if evaluable (defined_in values) x then exists v, accept values x = Return v
  else exists e, accept values x = Throw e.
Proof.
  induction x as [i | n d | d | s | s | args IH | args IH | b ex IHb IHe
                 | a IH | a IH | a IH | a IH | f args IH] using Basic_args_ind;
    cbn [accept evaluable]; eauto.
  - unfold bvisit_Symbol, defined_in. destruct (values !! s); cbv iota; eauto.
  - apply (fold_accept_outcome _ _ PrimFloat.add _ IH (Return 0%float)).
  - apply (fold_accept_outcome _ _ PrimFloat.mul _ IH (Return 1%float)).
  - unfold bvisit_Pow. revert IHb IHe.
    destruct (evaluable (defined_in values) b); cbn [andb]; intros [vb ->];
      cbn [bind]; [| eauto].
    destruct (evaluable (defined_in values) ex); intros [ve ->]; cbn [bind]; eauto.
  - unfold bvisit_function. revert IH.
    destruct (evaluable (defined_in values) a); intros [v ->]; cbn [bind]; eauto.
  - unfold bvisit_function. revert IH.
    destruct (evaluable (defined_in values) a); intros [v ->]; cbn [bind]; eauto.
  - unfold bvisit_function. revert IH.
    destruct (evaluable (defined_in values) a); intros [v ->]; cbn [bind]; eauto.
  - unfold bvisit_function. revert IH.
    destruct (evaluable (defined_in values) a); intros [v ->]; cbn [bind]; eauto.
Qed.

(** [evaluate_at_point] returns a value exactly on the expressions built
    from literals, sums, products, powers, [sin], [cos], [tan] and [log]
    over symbols the point defines; on any other expression, one that holds
    a constant such as [E] or [pi] included, it throws, and what it throws
    is a [NumericError]. *)
Theorem evaluate_at_point_defined (expr : Basic) (point : gmap string float) :
  ((exists v, evaluate_at_point expr point = Return v) <->
   evaluable (defined_in point) expr = true)
  /\ ((exists e, evaluate_at_point expr point = Throw e
                 /\ class_of e = MathLLMError KNumeric) <->
      evaluable (defined_in point) expr = false).
Proof.
  unfold evaluate_at_point. pose proof (accept_outcome point expr) as Hout.
  destruct (evaluable (defined_in point) expr).
  - destruct Hout as [v Hv]. rewrite Hv. split; split; try reflexivity; eauto.
    + intros (e & He & _). discriminate.
    + discriminate.
  - destruct Hout as [e He]. rewrite He. split; split; try reflexivity.
    + intros [v Hv]. discriminate.
    + discriminate.
    + intros _. exists e. split; [reflexivity |].
      apply is_kind_class. apply (accept_throws_NumericError point expr). exact He.
Qed.

Lemma evaluable_ext (f g : string -> bool) (x : Basic) :
  (forall s, f s = g s) -> evaluable f x = evaluable g x.
Proof.
  intros Hfg.
  induction x as [i | n d | d | s | s | args IH | args IH | b ex IHb IHe
                 | a IH | a IH | a IH | a IH | fn args IH] using Basic_args_ind;
    cbn [evaluable]; try reflexivity; try assumption.
  - apply Hfg.
  - induction IH as [| a args Ha _ IHargs]; cbn [forallb]; [reflexivity |].
    rewrite Ha, IHargs. reflexivity.
  - induction IH as [| a args Ha _ IHargs]; cbn [forallb]; [reflexivity |].
    rewrite Ha, IHargs. reflexivity.
  - rewrite IHb, IHe. reflexivity.
Qed.

(** The inner loop of a trial, from any point and generator state. *)
Lemma draw_loop_point (symbols : list string) (domain_min domain_max : float) :
  forall (point : gmap string float) (rng : mt19937),
    let drawn : gmap string float :=
      fst (fold_left
             (fun '((point, rng) : gmap string float * mt19937) (sym : string) =>
                let '(value, rng) := draw_value domain_min domain_max rng in
                (<[sym := value]> point, rng))
             symbols (point, rng)) in
    (forall s, is_Some (drawn !! s) <-> is_Some (point !! s) \/ In s symbols)
    /\ (forall s v, drawn !! s = Some v ->
                    point !! s = Some v \/ sanitized domain_min v).
Proof.
  induction symbols as [| sym symbols IH]; intros point rng; cbv zeta.
  - cbn [fold_left fst In]. split; [intros s; tauto | intros s v; tauto].
  - cbn [fold_left].
    destruct (draw_value domain_min domain_max rng) as [value rng'] eqn:Hdraw.
    destruct (IH (<[sym := value]> point) rng') as [Hdom Hval]. split.
    + intros s. rewrite Hdom, lookup_insert_is_Some. cbn [In].
      destruct (decide (sym = s)); tauto.
    + intros s v Hs. destruct (Hval s v Hs) as [Hins | Hgood]; [| tauto].
      apply lookup_insert_Some in Hins.
      destruct Hins as [[_ <-] | [_ Hold]]; [right | tauto].
      unfold draw_value in Hdraw.
      destruct (uniform_real domain_min domain_max rng) as [u rng''].
      injection Hdraw as <- _. unfold sanitized.
      destruct (PrimFloat.abs u <? 1e-10)%float eqn:Hu; [right | left]; auto.
Qed.

(** The point of a trial defines exactly the symbols of the list, and none
    of its values is within [1e-10] of zero unless it is the replacement
    [domain_min + 0.1]. *)
Theorem draw_point_values (symbols : list string) (domain_min domain_max : float)
    (rng : mt19937) :
  let point := fst (draw_point symbols domain_min domain_max rng) in
  (forall s, is_Some (point !! s) <-> In s symbols)
  /\ (forall s v, point !! s = Some v -> sanitized domain_min v).
Proof.
  cbv zeta. unfold draw_point.
  destruct (draw_loop_point symbols domain_min domain_max ∅ rng) as [Hdom Hval].
  split.
  - intros s. rewrite Hdom, lookup_empty. split; [| tauto].
    intros [[v Hv] | Hin]; [discriminate | exact Hin].
  - intros s v Hs. destruct (Hval s v Hs) as [Hold | Hgood]; [| exact Hgood].
    rewrite lookup_empty in Hold. discriminate.
Qed.

End EvaluatorFacts.

Section ProbeFacts.
Import Numeric Evaluable.
Context `{Engine} `{Libm} `{Random}.

(** [probe_equal] on arguments it accepts and sides that parse. *)
Lemma probe_equal_run (lhs_str rhs_str : string) (lhs rhs : Basic)
    (symbols : list string) (trials seed : Z)
    (domain_min domain_max threshold : float) :
  symbols <> [] -> 0 < trials -> ge domain_min domain_max = false ->
  parse lhs_str = Return lhs -> parse rhs_str = Return rhs ->
  probe_equal lhs_str rhs_str symbols trials seed domain_min domain_max threshold
  = Return
      (mkProbeResult
         (fold_right Z.add 0
            (map snd (outcomes lhs rhs threshold
                        (sample_points (Z.to_nat trials) symbols domain_min
                           domain_max (mt19937_seed seed)))) =? 0)
         trials
         (fold_right Z.add 0
            (map snd (outcomes lhs rhs threshold
                        (sample_points (Z.to_nat trials) symbols domain_min
                           domain_max (mt19937_seed seed)))))
         (map fst (outcomes lhs rhs threshold
                     (sample_points (Z.to_nat trials) symbols domain_min
                        domain_max (mt19937_seed seed))))).
Proof.
  intros Hsym Htrials Hdom Hl Hr. unfold probe_equal.
  destruct symbols as [| s0 symbols']; [congruence |].
  replace (trials <=? 0) with false by (symmetry; apply Z.leb_gt; lia).
  rewrite Hdom, Hl, Hr. cbn [bind].
  destruct (trial_loop_records lhs rhs (s0 :: symbols') domain_min domain_max
              threshold (Z.to_nat trials)
              (mkProbeState (mt19937_seed seed) 0 []))
    as (st' & -> & Herr & Hfail).
  cbn [bind]. cbn [st_rng st_failures st_max_errors app] in Herr, Hfail.
  rewrite Herr, Hfail. reflexivity.
Qed.

(** [probe_equal] checks its arguments in the order symbols, trials,
    domain, and throws a [NumericError] naming the first check that fails:
    an empty list of symbols is reported whatever the other arguments are,
    a number of trials that is not positive is reported whatever the domain
    is, and the domain only after both.  With arguments it accepts, a side
    the parser rejects makes it throw a [NumericError] with the parser's
    message behind [Parse error: ], the left side first. *)
Theorem probe_equal_rejects (lhs_str rhs_str : string) (symbols : list string)
    (trials seed : Z) (domain_min domain_max threshold : float) :
  (symbols = [] ->
   probe_equal lhs_str rhs_str symbols trials seed domain_min domain_max threshold
   = Throw (NumericError "No symbols provided for numeric probe"))
  /\ (symbols <> [] -> trials <= 0 ->
      probe_equal lhs_str rhs_str symbols trials seed domain_min domain_max
        threshold
      = Throw (NumericError "Number of trials must be positive"))
  /\ (symbols <> [] -> 0 < trials -> ge domain_min domain_max = true ->
      probe_equal lhs_str rhs_str symbols trials seed domain_min domain_max
        threshold
      = Throw (NumericError "Invalid domain: min must be less than max"))
  /\ (symbols <> [] -> 0 < trials -> ge domain_min domain_max = false ->
      forall ex,
        parse lhs_str = Throw ex
        \/ (exists lhs, parse lhs_str = Return lhs /\ parse rhs_str = Throw ex) ->
        probe_equal lhs_str rhs_str symbols trials seed domain_min domain_max
          threshold
        = Throw (NumericError ("Parse error: " +:+ what ex))).
Proof.
  unfold probe_equal. split; [| split; [| split]].
  - intros ->. reflexivity.
  - intros Hsym Htrials. destruct symbols as [| s0 symbols']; [congruence |].
    replace (trials <=? 0) with true by (symmetry; apply Z.leb_le; lia).
    reflexivity.
  - intros Hsym Htrials Hdom. destruct symbols as [| s0 symbols']; [congruence |].
    replace (trials <=? 0) with false by (symmetry; apply Z.leb_gt; lia).
    rewrite Hdom. reflexivity.
  - intros Hsym Htrials Hdom ex Hparse.
    destruct symbols as [| s0 symbols']; [congruence |].
    replace (trials <=? 0) with false by (symmetry; apply Z.leb_gt; lia).
    rewrite Hdom.
    destruct Hparse as [-> | (lhs & -> & ->)]; reflexivity.
Qed.

(** A trial fails, or its error is not above the threshold. *)
Lemma trial_outcome_cases (lhs rhs : Basic) (point : gmap string float)
    (threshold : float) :
  let '(err, failed) := trial_outcome lhs rhs point threshold in
  (failed = 0 /\ gt err threshold = false) \/ failed = 1.
Proof.
  unfold trial_outcome.
  destruct (evaluate_at_point lhs point) as [l | e]; [| right; reflexivity].
  destruct (evaluate_at_point rhs point) as [r | e]; [| right; reflexivity].
  destruct (isfinite l && isfinite r); [| right; reflexivity].
  cbv zeta. destruct (gt _ threshold) eqn:Hgt; [right | left]; auto.
Qed.

Lemma outcomes_count (lhs rhs : Basic) (threshold : float)
    (points : list (gmap string float)) :
  let recorded := outcomes lhs rhs threshold points in
  0 <= fold_right Z.add 0 (map snd recorded) <= Z.of_nat (List.length points)
  /\ (fold_right Z.add 0 (map snd recorded) = 0 ->
      Forall (fun err => gt err threshold = false) (map fst recorded)).
Proof.
  cbv zeta. unfold outcomes.
  induction points as [| point points IH]; cbn [map fold_right List.length].
  - split; [lia | constructor].
  - pose proof (trial_outcome_cases lhs rhs point threshold) as Hcase.
    destruct (trial_outcome lhs rhs point threshold) as [err failed].
    cbn [fst snd]. destruct IH as [Hrange Hzero].
    destruct Hcase as [[-> Hgt] | ->].
    + split; [lia |]. intros Hsum. constructor; [exact Hgt |].
      apply Hzero. lia.
    + split; [lia |]. intros Hsum. lia.
Qed.

(** On arguments it accepts and sides that parse, [probe_equal] returns:
    no exception of a trial escapes.  The failures it counts are between 0
    and the number of trials, [equal] holds exactly when there is none, and
    then no recorded error is above the threshold. *)
Theorem probe_equal_verdict (lhs_str rhs_str : string) (lhs rhs : Basic)
    (symbols : list string) (trials seed : Z)
    (domain_min domain_max threshold : float) :
  symbols <> [] -> 0 < trials -> ge domain_min domain_max = false ->
  parse lhs_str = Return lhs -> parse rhs_str = Return rhs ->
  exists res,
    probe_equal lhs_str rhs_str symbols trials seed domain_min domain_max threshold
    = Return res
    /\ 0 <= failures res <= trials
    /\ (equal res = true <-> failures res = 0)
    /\ (equal res = true ->
        Forall (fun err => gt err threshold = false) (max_errors res)).
Proof.
  intros Hsym Htrials Hdom Hl Hr.
  rewrite (probe_equal_run _ _ lhs rhs) by assumption.
  eexists. split; [reflexivity |]. cbn [failures equal max_errors].
  pose proof (outcomes_count lhs rhs threshold
                (sample_points (Z.to_nat trials) symbols domain_min domain_max
                   (mt19937_seed seed))) as [Hrange Hzero].
  rewrite sample_points_length in Hrange.
  split; [lia |]. rewrite Z.eqb_eq. split; [tauto |].
  exact Hzero.
Qed.

Lemma listed_In (symbols : list string) (s : string) :
  listed symbols s = true <-> In s symbols.
Proof.
  unfold listed. rewrite existsb_exists. split.
  - intros (x & Hx & Heq). apply String.eqb_eq in Heq. subst. exact Hx.
  - intros Hin. exists s. split; [exact Hin | apply String.eqb_refl].
Qed.

Lemma sample_points_listed (symbols : list string) (domain_min domain_max : float)
    (n : nat) :
  forall rng,
    Forall (fun point : gmap string float =>
              forall s, defined_in point s = listed symbols s)
      (sample_points n symbols domain_min domain_max rng).
Proof.
  induction n as [| n IH]; intros rng; cbn [sample_points]; [constructor |].
  destruct (draw_point symbols domain_min domain_max rng) as [point rng'] eqn:Hdraw.
  constructor; [| apply IH].
  intros s.
  destruct (draw_loop_point symbols domain_min domain_max ∅ rng) as [Hdom _].
  unfold draw_point in Hdraw. rewrite Hdraw in Hdom. cbn [fst] in Hdom.
  specialize (Hdom s). rewrite lookup_empty in Hdom. unfold defined_in.
  destruct (listed symbols s) eqn:Hls.
  - apply listed_In in Hls.
    destruct (proj2 Hdom (or_intror Hls)) as [v ->]. reflexivity.
  - destruct (point !! s) as [v |] eqn:Hp; [| reflexivity].
    destruct (proj1 Hdom (ex_intro _ v Logic.eq_refl)) as [[w Hw] | Hin];
      [discriminate |].
    apply listed_In in Hin. congruence.
Qed.

(** When a side holds a symbol that is not in [symbols], or a constant
    such as [E] or [pi], or a function the evaluator has no overload for,
    every trial fails: [probe_equal] returns [equal = false] with as many
    failures as trials and an infinite error for each. *)
Theorem probe_equal_unevaluable (lhs_str rhs_str : string) (lhs rhs : Basic)
    (symbols : list string) (trials seed : Z)
    (domain_min domain_max threshold : float) :
  symbols <> [] -> 0 < trials -> ge domain_min domain_max = false ->
  parse lhs_str = Return lhs -> parse rhs_str = Return rhs ->
  evaluable (listed symbols) lhs = false \/ evaluable (listed symbols) rhs = false ->
  probe_equal lhs_str rhs_str symbols trials seed domain_min domain_max threshold
  = Return (mkProbeResult false trials trials
              (repeat PrimFloat.infinity (Z.to_nat trials))).
Proof.
  intros Hsym Htrials Hdom Hl Hr Hbad.
  rewrite (probe_equal_run _ _ lhs rhs) by assumption.
  assert (Hall : forall points,
             Forall (fun point : gmap string float =>
                       forall s, defined_in point s = listed symbols s) points ->
             map fst (outcomes lhs rhs threshold points)
             = repeat PrimFloat.infinity (List.length points)
             /\ fold_right Z.add 0 (map snd (outcomes lhs rhs threshold points))
                = Z.of_nat (List.length points)).
  { induction 1 as [| point points Hpoint _ IH].
    - split; reflexivity.
    - unfold outcomes in *. cbn [map fold_right List.length repeat].
      destruct IH as [-> ->].
      assert (Hout : trial_outcome lhs rhs point threshold
                     = (PrimFloat.infinity, 1)).
      { unfold trial_outcome, evaluate_at_point.
        pose proof (accept_outcome point lhs) as Hlhs.
        pose proof (accept_outcome point rhs) as Hrhs.
        rewrite (evaluable_ext _ _ lhs Hpoint) in Hlhs.
        rewrite (evaluable_ext _ _ rhs Hpoint) in Hrhs.
        destruct Hbad as [Hb | Hb]; rewrite Hb in *.
        - destruct Hlhs as [e ->]. reflexivity.
        - destruct Hrhs as [e ->]. destruct (accept point lhs); reflexivity. }
      rewrite Hout. cbn [fst snd]. split; [reflexivity | lia]. }
  destruct (Hall _ (sample_points_listed symbols domain_min domain_max
                      (Z.to_nat trials) (mt19937_seed seed))) as [-> ->].
  rewrite sample_points_length.
  replace (Z.of_nat (Z.to_nat trials)) with trials by lia.
  replace (trials =? 0) with false by (symmetry; apply Z.eqb_neq; lia).
  reflexivity.
Qed.

End ProbeFacts.

(** ** The trajectory of [solve_ivp] *)

Section TrajectoryFacts.
Import ODE Trajectory.
Context `{Engine}.

Lemma rk4_step_shifted (evaluator : float -> list float -> result (list float))
    (h t : float) (y y' : list float) :
  rk4_step evaluator h t y = Return y' -> shifted y y'.
Proof.
  unfold rk4_step, slope.
  destruct (evaluator t y) as [[| k1 ?] | e]; cbn [bind]; try discriminate.
  destruct (evaluator _ _) as [[| k2 ?] | e]; cbn [bind]; try discriminate.
  destruct (evaluator _ _) as [[| k3 ?] | e]; cbn [bind]; try discriminate.
  destruct (evaluator _ _) as [[| k4 ?] | e]; cbn [bind]; try discriminate.
  intros [= <-]. eexists. reflexivity.
Qed.

Lemma chained_snoc (R : list float -> list float -> Prop) (b d : list float) :
  forall (l : list (list float)) (a : list float),
    chained R (a :: l) -> R (List.last (a :: l) d) b ->
    chained R ((a :: l) ++ [b])%list.
Proof.
  induction l as [| x l IH]; intros a.
  - cbn. tauto.
  - intros [Hax Htl] Hlast. split; [exact Hax |].
    apply IH; [exact Htl | exact Hlast].
Qed.

Lemma head_char_differs (a b : string) :
  match a, b with
  | String x _, String y _ => x <> y
  | _, _ => False
  end -> a <> b.
Proof.
  intros Hdiff ->. destruct b as [| c b]; [exact Hdiff | exact (Hdiff Logic.eq_refl)].
Qed.

Lemma stepping_step (t0 : float) (y0 : list float) (max_steps : Z) (h : float)
    (n : nat) (t : float) (y y' : list float) (r : ODEResult) :
  stepping t0 y0 max_steps (S n) t y r ->
  shifted y y' -> exploded y' = false ->
  stepping t0 y0 max_steps n (t + h)%float y'
    (push_back (t + h)%float y' (incr_steps r)).
Proof.
  intros (Hs & Hpos & Hcount & Hlen & Hsteps & Ht0 & Hy0 & Hlt & Hly & Hall
          & Hfin & Hch & Hmsg) Hshift Hex.
  unfold stepping.
  cbn [success t_values y_values steps_taken message push_back incr_steps].
  destruct (t_values r) as [| ta ts] eqn:Hts; [discriminate |].
  destruct (y_values r) as [| ya ys] eqn:Hys; [discriminate |].
  cbn [tl] in Hfin.
  repeat match goal with |- _ /\ _ => split end.
  - exact Hs.
  - lia.
  - lia.
  - rewrite !length_app. cbn [List.length] in *. lia.
  - rewrite length_app. cbn [List.length] in *. lia.
  - exact Ht0.
  - exact Hy0.
  - apply last_last.
  - apply last_last.
  - apply Forall_app. split; [exact Hall |]. constructor; [| constructor].
    destruct Hshift as [inc ->]. rewrite length_map.
    rewrite <- Hly.
    assert (Hin : In (List.last (ya :: ys) y0) (ya :: ys)).
    { clear. revert ya. induction ys as [| b ys IH]; intros ya.
      - left. reflexivity.
      - right. apply IH. }
    rewrite List.Forall_forall in Hall. apply Hall, Hin.
  - cbn [app tl]. apply Forall_app. split; [exact Hfin |].
    constructor; [exact Hex | constructor].
  - apply (chained_snoc shifted y' y0); [exact Hch |]. rewrite Hly. exact Hshift.
  - exact Hmsg.
Qed.

Lemma rk4_loop_settled (evaluator : float -> list float -> result (list float))
    (h t0 t1 : float) (y0 : list float) (max_steps : Z) :
  forall (n : nat) (t : float) (y : list float) (r r' : ODEResult),
    stepping t0 y0 max_steps n t y r ->
    rk4_loop evaluator h n t1 t y r = Return r' ->
    settled t0 t1 y0 max_steps r'.
Proof.
  assert (Hfinish : forall n t y r,
             stepping t0 y0 max_steps n t y r ->
             (1 <= steps_taken r /\ ge t (t1 - 1e-10)%float = true) \/ n = O ->
             settled t0 t1 y0 max_steps (finish r)).
  { intros n t y r (Hs & Hpos & Hcount & Hlen & Hsteps & Ht0 & Hy0 & Hlt & Hly
                    & Hall & Hfin & Hch & Hmsg) Hend.
    unfold settled, finish.
    cbn [success t_values y_values steps_taken message set_message set_success].
    repeat match goal with |- _ /\ _ => split end;
      try assumption; try lia; try (left; assumption);
      try (split; reflexivity).
    intros _. destruct Hend as [[Hone Hge] | ->]; [left | right; lia].
    rewrite Hlt. auto. }
  induction n as [| n IH]; intros t y r r' Hinv; cbn [rk4_loop].
  - intros [= <-]. apply (Hfinish O t y r Hinv). right. reflexivity.
  - destruct (rk4_step evaluator h t y) as [y' | e] eqn:Hstep.
    + apply rk4_step_shifted in Hstep.
      destruct (exploded y') eqn:Hex.
      * intros [= <-].
        destruct Hinv as (Hs & Hpos & Hcount & Hlen & Hsteps & Ht0 & Hy0 & Hlt
                          & Hly & Hall & Hfin & Hch & Hmsg).
        unfold settled.
        cbn [success t_values y_values steps_taken message set_message
               set_success incr_steps].
        repeat match goal with |- _ /\ _ => split end;
          try assumption; try lia; try discriminate.
        -- right. split; [reflexivity | lia].
        -- split; [discriminate |].
           intros Heq. exfalso. revert Heq. apply head_char_differs.
           vm_compute. discriminate.
      * pose proof (stepping_step t0 y0 max_steps h n t y y' r Hinv Hstep Hex)
          as Hnext.
        destruct (ge _ _) eqn:Hge.
        -- intros [= <-]. apply (Hfinish n _ y' _ Hnext). left.
           split; [| exact Hge].
           destruct Hinv as (_ & Hpos & _). cbn. lia.
        -- apply (IH _ _ _ _ Hnext).
    + destruct (is_kind KODE e); [| discriminate].
      intros [= <-].
      destruct Hinv as (Hs & Hpos & Hcount & Hlen & Hsteps & Ht0 & Hy0 & Hlt
                        & Hly & Hall & Hfin & Hch & Hmsg).
      unfold settled.
      cbn [success t_values y_values steps_taken message set_message].
      repeat match goal with |- _ /\ _ => split end;
        try assumption; try lia; try congruence.
      split; [congruence |].
      intros Heq. exfalso. revert Heq. apply head_char_differs.
      vm_compute. discriminate.
Qed.

(** What [solve_ivp] returns is a rejection of its arguments, with one of
    the four messages, or what the loop hands back. *)
Lemma solve_ivp_settled (expr : string) (t0 t1 : float) (y0 : list float)
    (symbols : list string) (rtol atol : float) (max_steps : Z) (r : ODEResult) :
  solve_ivp expr t0 t1 y0 symbols rtol atol max_steps = Return r ->
  (success r = false /\ t_values r = [] /\ y_values r = [] /\ steps_taken r = 0
   /\ message r <> completed)
  \/ (0 < max_steps /\ settled t0 t1 y0 max_steps r).
Proof.
  unfold solve_ivp.
  destruct (PrimFloat.leb t1 t0);
    [intros [= <-]; left; repeat split; discriminate |].
  destruct (Nat.eqb (List.length y0) 0);
    [intros [= <-]; left; repeat split; discriminate |].
  destruct (Nat.eqb (List.length symbols) 0);
    [intros [= <-]; left; repeat split; discriminate |].
  destruct (max_steps <=? 0) eqn:Hm;
    [intros [= <-]; left; repeat split; discriminate |].
  apply Z.leb_gt in Hm.
  destruct (parse expr) as [parsed | e]; cbn [bind try_catch].
  - intros Hrun. right. split; [exact Hm |].
    destruct (rk4_loop _ _ _ _ _ _ _) as [r0 | e] eqn:Hloop;
      cbn [try_catch] in Hrun.
    + injection Hrun as <-.
      refine (rk4_loop_settled _ _ t0 t1 y0 max_steps _ _ _ _ _ _ Hloop).
      unfold stepping. cbn.
      repeat match goal with |- _ /\ _ => split end;
        try reflexivity; try lia; try discriminate; auto.
    + destruct (is_symengine_parse_error e); discriminate.
  - destruct (is_symengine_parse_error e); discriminate.
Qed.

(** Whatever [solve_ivp] returns has a step count between 0 and
    [max_steps], as many recorded times as states, every state as long as
    [y0], and no recorded state after the first with a component above the
    threshold ([y0] itself is never tested).  Either nothing is recorded
    and no step was taken (the arguments were rejected), or the first
    recorded point is [(t0, y0)] and there is one point per step and the
    initial one, except after an explosion, where the exploding step is
    counted and not recorded. *)
Theorem solve_ivp_trajectory_shape (expr : string) (t0 t1 : float)
    (y0 : list float) (symbols : list string) (rtol atol : float)
    (max_steps : Z) (r : ODEResult) :
  solve_ivp expr t0 t1 y0 symbols rtol atol max_steps = Return r ->
  0 <= steps_taken r <= Z.max 0 max_steps
  /\ List.length (t_values r) = List.length (y_values r)
  /\ Forall (fun y => List.length y = List.length y0) (y_values r)
  /\ Forall (fun y => exploded y = false) (tl (y_values r))
  /\ ((t_values r = [] /\ steps_taken r = 0 /\ success r = false)
      \/ (hd_error (t_values r) = Some t0 /\ hd_error (y_values r) = Some y0
          /\ (Z.of_nat (List.length (t_values r)) = steps_taken r + 1
              \/ (message r = "Solution exploded (exceeded threshold)"
                  /\ Z.of_nat (List.length (t_values r)) = steps_taken r)))).
Proof.
  intros Hrun.
  destruct (solve_ivp_settled _ _ _ _ _ _ _ _ _ Hrun)
    as [(Hs & Ht & Hy & Hsteps & _)
       | (Hm & Hrange & Hlen & Ht0 & Hy0 & Hcount & Hall & Hfin & _)].
  - rewrite Ht, Hy, Hsteps. repeat split; try lia; try constructor. auto.
  - repeat split; try assumption; try lia. right. auto.
Qed.

(** [success] is set exactly when the message is
    [Integration completed successfully].  A successful call has taken at
    least one step, and either its last recorded time is at least
    [t1 - 1e-10] or it has used all [max_steps] steps: the time reached is
    not compared with [t1] when the loop runs out. *)
Theorem solve_ivp_success_meaning (expr : string) (t0 t1 : float)
    (y0 : list float) (symbols : list string) (rtol atol : float)
    (max_steps : Z) (r : ODEResult) :
  solve_ivp expr t0 t1 y0 symbols rtol atol max_steps = Return r ->
  (success r = true <-> message r = "Integration completed successfully")
  /\ (success r = true ->
      1 <= steps_taken r
      /\ (ge (List.last (t_values r) t0) (t1 - 1e-10)%float = true
          \/ steps_taken r = max_steps)).
Proof.
  intros Hrun.
  destruct (solve_ivp_settled _ _ _ _ _ _ _ _ _ Hrun)
    as [(Hs & _ & _ & _ & Hmsg)
       | (Hm & _ & _ & _ & _ & _ & _ & _ & _ & Hiff & Hend)].
  - split; [| congruence]. split; [congruence | intros Heq; contradiction].
  - split; [exact Hiff |]. intros Hsuccess.
    destruct (Hend Hsuccess) as [[Hone Hge] | Hall]; [auto |].
    split; [lia | auto].
Qed.

(** Every step adds one and the same increment to all components of the
    state: the right-hand side is evaluated to a single number, which
    serves every component.  So each recorded state is the one before it
    shifted by one number. *)
Theorem solve_ivp_common_increment (expr : string) (t0 t1 : float)
    (y0 : list float) (symbols : list string) (rtol atol : float)
    (max_steps : Z) (r : ODEResult) :
  solve_ivp expr t0 t1 y0 symbols rtol atol max_steps = Return r ->
  chained shifted (y_values r).
Proof.
  intros Hrun.
  destruct (solve_ivp_settled _ _ _ _ _ _ _ _ _ Hrun)
    as [(_ & _ & Hy & _) | (_ & _ & _ & _ & _ & _ & _ & _ & Hch & _)].
  - rewrite Hy. exact I.
  - exact Hch.
Qed.

Lemma rk4_loop_Throw (evaluator : float -> list float -> result (list float))
    (h t1 : float) :
  forall (n : nat) (t : float) (y : list float) (r : ODEResult) (ex : exn),
    rk4_loop evaluator h n t1 t y r = Throw ex -> is_kind KODE ex = false.
Proof.
  induction n as [| n IH]; intros t y r ex; cbn [rk4_loop]; [discriminate |].
  destruct (rk4_step evaluator h t y) as [y' | e].
  - destruct (exploded y'); [discriminate |].
    destruct (ge _ _); [discriminate | apply IH].
  - destruct (is_kind KODE e) eqn:Hk; [discriminate |].
    intros [= <-]. exact Hk.
Qed.

(** [solve_ivp] throws only after its arguments passed the four checks,
    and then a [ParseError] or an [ODEError] that wraps the message of what
    was thrown inside: a [ParseError] exactly when that was a parse error
    of SymEngine.  What was thrown inside is what the parser threw, or an
    exception of a step that is not an [ODEError]: an [ODEError] of the
    evaluator never leaves the call as an exception. *)
Theorem solve_ivp_throws (expr : string) (t0 t1 : float) (y0 : list float)
    (symbols : list string) (rtol atol : float) (max_steps : Z) (e : exn) :
  solve_ivp expr t0 t1 y0 symbols rtol atol max_steps = Throw e ->
  PrimFloat.leb t1 t0 = false /\ y0 <> [] /\ symbols <> [] /\ 0 < max_steps
  /\ exists ex,
       (parse expr = Throw ex
        \/ ((exists parsed, parse expr = Return parsed) /\ is_kind KODE ex = false))
       /\ e = (if is_symengine_parse_error ex
               then ParseError ("Failed to parse ODE expression: " +:+ what ex)
               else ODEError ("ODE integration failed: " +:+ what ex)).
Proof.
  unfold solve_ivp.
  destruct (PrimFloat.leb t1 t0); [discriminate |].
  destruct y0 as [| y y0]; [discriminate |].
  destruct symbols as [| s symbols]; [discriminate |].
  cbn [List.length Nat.eqb].
  destruct (max_steps <=? 0) eqn:Hm; [discriminate |].
  apply Z.leb_gt in Hm.
  intros Hrun. repeat split; try discriminate; try exact Hm.
  destruct (parse expr) as [parsed | ex]; cbn [bind try_catch] in Hrun.
  - destruct (rk4_loop _ _ _ _ _ _ _) as [r0 | ex] eqn:Hloop;
      cbn [try_catch] in Hrun; [discriminate |].
    exists ex. split.
    + right. split; [eexists; reflexivity |].
      exact (rk4_loop_Throw _ _ _ _ _ _ _ _ Hloop).
    + destruct (is_symengine_parse_error ex); congruence.
  - exists ex. split; [left; reflexivity |].
    destruct (is_symengine_parse_error ex); congruence.
Qed.

(** With arguments that pass the four checks and an expression that
    parses, a [y0] that does not have one entry less than [symbols] is
    reported by the first evaluation: the call returns without a step,
    with the initial point recorded and the evaluator's message behind
    [ODE evaluation failed: ]. *)
Theorem solve_ivp_mismatch (expr : string) (parsed : Basic) (t0 t1 : float)
    (y0 : list float) (symbols : list string) (rtol atol : float)
    (max_steps : Z) :
  PrimFloat.leb t1 t0 = false -> y0 <> [] -> symbols <> [] -> 0 < max_steps ->
  parse expr = Return parsed ->
  S (List.length y0) <> List.length symbols ->
  Z.of_nat (List.length symbols) < 2 ^ 64 ->
  solve_ivp expr t0 t1 y0 symbols rtol atol max_steps
  = Return (mkODEResult false [t0] [y0] 0
              "ODE evaluation failed: ODEError: Mismatch between y values and symbols").
Proof.
  intros Ht Hy Hsym Hm Hparse Hlen Hsize. unfold solve_ivp.
  rewrite Ht, Hparse.
  destruct y0 as [| y y0]; [congruence |].
  destruct symbols as [| s symbols]; [congruence |].
  cbn [List.length Nat.eqb].
  replace (max_steps <=? 0) with false by (symmetry; apply Z.leb_gt; lia).
  cbn [bind].
  destruct (Z.to_nat max_steps) as [| n] eqn:Hn; [lia |].
  cbn [rk4_loop]. unfold rk4_step, slope, evaluate.
  cbn [List.length] in *.
  replace ((Z.of_nat (S (List.length symbols)) - 1) mod 2 ^ 64)
    with (Z.of_nat (List.length symbols))
    by (rewrite Z.mod_small; lia).
  replace (Z.of_nat (S (List.length y0)) =? Z.of_nat (List.length symbols))
    with false by (symmetry; apply Z.eqb_neq; lia).
  reflexivity.
Qed.

End TrajectoryFacts.

(** ** The command line *)

Section CliFacts.
Import Symbolic Solving Cli.
Context `{Engine} `{Solver}.

(** What [report] leaves, for a call whose exceptions have class [c]. *)
Lemma report_outcome (c : exn_class) (outcome : result string) :
  (forall e, outcome = Throw e -> class_of e = c) ->
  (status (report outcome) = 0 /\ stderr (report outcome) = ""
   /\ exists value, outcome = Return value
                    /\ stdout (report outcome) = value +:+ endl)
  \/ (status (report outcome) = 1 /\ stdout (report outcome) = ""
      /\ exists ex, class_of ex = c
                    /\ stderr (report outcome) = what ex +:+ endl).
Proof.
  intros Hclass. destruct outcome as [value | ex]; cbn [report status stdout stderr].
  - left. repeat split. exists value. split; reflexivity.
  - right. repeat split. exists ex. split; [apply Hclass |]; reflexivity.
Qed.

Lemma report_not_usage (outcome : result string) : report outcome <> usage.
Proof.
  destruct outcome as [value | ex]; unfold report, usage; intros Heq.
  - discriminate (f_equal status Heq).
  - apply (f_equal stdout) in Heq. cbn [stdout] in Heq.
    vm_compute in Heq. discriminate.
Qed.

Lemma verify_equal_class (elapsed1 elapsed2 : Z) (lhs rhs : string)
    (timeout_ms : float) (e : exn) :
  Symbolic.verify_equal elapsed1 elapsed2 lhs rhs timeout_ms = Throw e ->
  class_of e = MathLLMError KVerifier.
Proof.
  unfold Symbolic.verify_equal.
  match goal with |- try_catch ?body _ = _ -> _ => destruct body as [b | ex] end;
    cbn [try_catch]; [discriminate |].
  destruct (is_kind KVerifier ex) eqn:Hk; intros [= <-]; [| reflexivity].
  unfold is_kind in Hk. destruct (class_of ex) as [| | | k]; try discriminate.
  destruct k; (discriminate || reflexivity).
Qed.

(** [main] always ends, in one of three ways: the usage text on the
    standard output with status 1; a line with the value on the standard
    output, nothing on the standard error and status 0; or nothing on the
    standard output, the message of a [SymbolicError] or [VerifierError]
    as a line on the standard error and status 1.  For [verify_equal] the
    value is [true] or [false]. *)
Theorem main_outcome (elapsed1 elapsed2 : Z) (argv : list string) :
  exists p,
    main elapsed1 elapsed2 argv = Some p
    /\ (p = usage
        \/ (status p = 0 /\ stderr p = ""
            /\ exists value,
                 stdout p = value +:+ endl
                 /\ (nth 1 argv "" = "verify_equal" ->
                     value = "true" \/ value = "false"))
        \/ (status p = 1 /\ stdout p = ""
            /\ exists ex,
                 stderr p = what ex +:+ endl
                 /\ (class_of ex = MathLLMError KSymbolic
                     \/ class_of ex = MathLLMError KVerifier))).
Proof.
  unfold main.
  destruct (Nat.ltb (List.length argv) 2); [eexists; split; [reflexivity | auto] |].
  destruct (String.eqb (nth 1 argv "") "integrate") eqn:Hint; cbn [orb].
  { destruct (Nat.ltb (List.length argv) 4);
      [eexists; split; [reflexivity | auto] |].
    destruct (integrate_total (nth 2 argv "") (nth 3 argv "")) as [r Hr].
    rewrite Hr. cbn [option_map]. eexists. split; [reflexivity |]. right.
    apply String.eqb_eq in Hint.
    destruct (report_outcome (MathLLMError KSymbolic) r)
      as [(Hst & Herr & value & _ & Hout) | (Hst & Hout & ex & Hc & Herr)].
    - intros e ->. unfold integrate in Hr.
      destruct (parse_expression _) as [parsed | ex].
      + destruct (integrate_basic _ parsed _) as [r0 |]; [| discriminate].
        assert (Hr0 : rethrow_as KSymbolic
                        (bind r0 (fun result => Return (to_string result)))
                      = Throw e) by congruence.
        exact (rethrow_as_class _ _ _ Hr0).
      + injection Hr as <-. reflexivity.
    - left. repeat split; try assumption. exists value. split; [exact Hout |].
      rewrite Hint. discriminate.
    - right. repeat split; try assumption. exists ex. auto. }
  destruct (String.eqb (nth 1 argv "") "diff") eqn:Hdiff.
  { destruct (Nat.ltb (List.length argv) 4);
      [eexists; split; [reflexivity | auto] |].
    eexists. split; [reflexivity |]. right.
    apply String.eqb_eq in Hdiff.
    destruct (report_outcome (MathLLMError KSymbolic)
                (Symbolic.diff (nth 2 argv "") (nth 3 argv "")))
      as [(Hst & Herr & value & _ & Hout) | (Hst & Hout & ex & Hc & Herr)].
    - intros e. apply rethrow_as_class.
    - left. repeat split; try assumption. exists value. split; [exact Hout |].
      rewrite Hdiff. discriminate.
    - right. repeat split; try assumption. exists ex. auto. }
  destruct (String.eqb (nth 1 argv "") "solve_equation") eqn:Hsolve.
  { destruct (Nat.ltb (List.length argv) 5);
      [eexists; split; [reflexivity | auto] |].
    eexists. split; [reflexivity |]. right.
    apply String.eqb_eq in Hsolve.
    destruct (report_outcome (MathLLMError KSymbolic)
                (solve_equation (nth 2 argv "") (nth 3 argv "") (nth 4 argv "")))
      as [(Hst & Herr & value & _ & Hout) | (Hst & Hout & ex & Hc & Herr)].
    - intros e. apply rethrow_as_class.
    - left. repeat split; try assumption. exists value. split; [exact Hout |].
      rewrite Hsolve. discriminate.
    - right. repeat split; try assumption. exists ex. auto. }
  destruct (String.eqb (nth 1 argv "") "verify_equal") eqn:Hverify;
    [| eexists; split; [reflexivity | auto]].
  destruct (Nat.ltb (List.length argv) 4);
    [eexists; split; [reflexivity | auto] |].
  eexists. split; [reflexivity |]. right.
  match goal with |- context [report ?o] =>
    destruct (report_outcome (MathLLMError KVerifier) o)
      as [(Hst & Herr & value & Hval & Hout) | (Hst & Hout & ex & Hc & Herr)]
  end.
  - intros e.
    destruct (Symbolic.verify_equal _ _ _ _ _) as [b | ex] eqn:Hv; cbn [bind];
      [discriminate |].
    intros [= <-]. exact (verify_equal_class _ _ _ _ _ _ Hv).
  - left. repeat split; try assumption. exists value. split; [exact Hout |].
    intros _.
    destruct (Symbolic.verify_equal _ _ _ _ _) as [[|] | ex]; cbn [bind] in Hval;
      [left | right | discriminate]; congruence.
  - right. repeat split; try assumption. exists ex. auto.
Qed.

(** [main] prints the usage text exactly when no command is given, when
    the command is none of the four, or when [integrate], [diff] and
    [verify_equal] get fewer than two arguments or [solve_equation] fewer
    than three.  Arguments beyond those are ignored. *)
Theorem main_usage (elapsed1 elapsed2 : Z) (argv : list string) :
  main elapsed1 elapsed2 argv = Some usage
  <-> ((List.length argv < 2)%nat
       \/ ((nth 1 argv "" = "integrate" \/ nth 1 argv "" = "diff"
            \/ nth 1 argv "" = "verify_equal")
           /\ (List.length argv < 4)%nat)
       \/ (nth 1 argv "" = "solve_equation" /\ (List.length argv < 5)%nat)
       \/ (nth 1 argv "" <> "integrate" /\ nth 1 argv "" <> "diff"
           /\ nth 1 argv "" <> "solve_equation"
           /\ nth 1 argv "" <> "verify_equal")).
Proof.
  unfold main.
  destruct (Nat.ltb (List.length argv) 2) eqn:H2.
  { apply Nat.ltb_lt in H2. split; auto 8. }
  apply Nat.ltb_ge in H2.
  destruct (String.eqb_spec (nth 1 argv "") "integrate") as [Hint | Hint];
    cbn [orb].
  { rewrite Hint.
    destruct (Nat.ltb (List.length argv) 4) eqn:H4.
    - apply Nat.ltb_lt in H4. split; auto 8.
    - apply Nat.ltb_ge in H4.
      split.
      + destruct (integrate _ _) as [r |]; cbn [option_map]; [| discriminate].
        intros [= Heq]. destruct (report_not_usage _ Heq).
      + intros [Hlt | [[_ Hlt] | [[Heq _] | (Hne & _)]]];
          try lia; try discriminate; congruence. }
  destruct (String.eqb_spec (nth 1 argv "") "diff") as [Hdiff | Hdiff].
  { rewrite Hdiff.
    destruct (Nat.ltb (List.length argv) 4) eqn:H4.
    - apply Nat.ltb_lt in H4. split; auto 8.
    - apply Nat.ltb_ge in H4.
      split.
      + intros [= Heq]. destruct (report_not_usage _ Heq).
      + intros [Hlt | [[_ Hlt] | [[Heq _] | (_ & Hne & _)]]];
          try lia; try discriminate; congruence. }
  destruct (String.eqb_spec (nth 1 argv "") "solve_equation") as [Hsolve | Hsolve].
  { rewrite Hsolve.
    destruct (Nat.ltb (List.length argv) 5) eqn:H5.
    - apply Nat.ltb_lt in H5. split; auto 8.
    - apply Nat.ltb_ge in H5.
      split.
      + intros [= Heq]. destruct (report_not_usage _ Heq).
      + intros [Hlt | [[[Heq | [Heq | Heq]] _] | [[_ Hlt] | (_ & _ & Hne & _)]]];
          try lia; try discriminate; congruence. }
  destruct (String.eqb_spec (nth 1 argv "") "verify_equal") as [Hverify | Hverify].
  { rewrite Hverify.
    destruct (Nat.ltb (List.length argv) 4) eqn:H4.
    - apply Nat.ltb_lt in H4. split; auto 8.
    - apply Nat.ltb_ge in H4.
      split.
      + intros [= Heq]. destruct (report_not_usage _ Heq).
      + intros [Hlt | [[_ Hlt] | [[Heq _] | (_ & _ & _ & Hne)]]];
          try lia; try discriminate; congruence. }
  split; auto 10.
Qed.

End CliFacts.

(** ** What [unit_check] reports *)

Section CheckerVocabulary.
Import Units Diagnostics.
Context `{Engine}.
Variable dims : gmap string Dimension.







End CheckerVocabulary.

(** ** The further properties on the sample platform *)

Lemma dimension_arithmetic_witness :
  let a := Units.mkDimension 1 0 (-1) 0 0 0 0 in
  let b := Units.mkDimension 0 1 0 0 0 0 0 in
  Units.dim_add a b = Units.dim_add b a
  /\ Units.dim_add a Units.dimensionless = a
  /\ DimensionOps.dim_sub (Units.dim_add a b) b = a
  /\ Units.dim_scale a 1 = a
  /\ DimensionOps.in_range (Units.dim_add a b).
Proof.
  apply (dimension_arithmetic (Units.mkDimension 1 0 (-1) 0 0 0 0)
           (Units.mkDimension 0 1 0 0 0 0 0)).
  unfold DimensionOps.in_range. cbn. lia.
Defined.

Lemma integrate_sum_witness :
  let args := [Symbol "x"; Integer 1] in
  (forall rs,
      Forall2 (fun t r => Symbolic.integrate_basic (H := Sample.engine) 3 t "x"
                          = Some (Return r)) args rs ->
      Symbolic.integrate_basic (H := Sample.engine) 3 (Add args) "x"
      = Some (Return (fold_left Sample.add rs (Integer 0))))
  /\ (forall before t after rs ex,
      args = (before ++ t :: after)%list ->
      Forall2 (fun t r => Symbolic.integrate_basic (H := Sample.engine) 3 t "x"
                          = Some (Return r)) before rs ->
      Symbolic.integrate_basic (H := Sample.engine) 3 t "x" = Some (Throw ex) ->
      Symbolic.integrate_basic (H := Sample.engine) 3 (Add args) "x"
      = Some (Throw ex)).
Proof.
  apply (integrate_sum (H := Sample.engine) [Symbol "x"; Integer 1] "x" 3).
  - cbn. lia.
  - reflexivity.
Defined.

Lemma integrate_function_cases_witness :
  let arg := Mul [Integer 2; Symbol "x"] in
  Symbolic.integrate_basic (H := Sample.engine) 1 (Sin (Symbol "x")) "x"
    = Some (Return (Sample.mul minus_one (Cos (Symbol "x"))))
  /\ Symbolic.integrate_basic (H := Sample.engine) 1 (Cos (Symbol "x")) "x"
     = Some (Return (Sin (Symbol "x")))
  /\ (arg <> Symbol "x" ->
      Symbolic.integrate_basic (H := Sample.engine) 1 (Sin arg) "x"
      = Some (Throw Symbolic.unsupported)
      /\ Symbolic.integrate_basic (H := Sample.engine) 1 (Cos arg) "x"
         = Some (Throw Symbolic.unsupported))
  /\ Symbolic.integrate_basic (H := Sample.engine) 1 (Tan arg) "x"
     = Some (Throw Symbolic.unsupported)
  /\ Symbolic.integrate_basic (H := Sample.engine) 1 (Log arg) "x"
     = Some (Throw Symbolic.unsupported)
  /\ (forall f args,
      In arg args ->
      Symbolic.integrate_basic (H := Sample.engine) 1 (FunctionSymbol f args) "x"
      = Some (Throw Symbolic.unsupported)).
Proof.
  apply (integrate_function_cases (H := Sample.engine)
           (Mul [Integer 2; Symbol "x"]) "x" 0).
  reflexivity.
Defined.

Lemma solutions_rendering_witness :
  (forall elements,
      Solving.solutions_to_string (H := Sample.engine) (Solving.FiniteSet elements)
      = "[" +:+ String.concat ", " (map Sample.str elements) +:+ "]")
  /\ (forall elements,
      SampleSolver.solve (Sample.sub Sample.x (Integer 0)) "x"
      = Return (Solving.FiniteSet elements) ->
      Solving.solve_equation (H := Sample.engine) (H0 := SampleSolver.solver)
        "x" "0" "x"
      = Return ("[" +:+ String.concat ", " (map Sample.str elements) +:+ "]"))
  /\ (forall printed,
      SampleSolver.solve (Sample.sub Sample.x (Integer 0)) "x"
      = Return (Solving.OtherSet printed) ->
      Solving.solve_equation (H := Sample.engine) (H0 := SampleSolver.solver)
        "x" "0" "x"
      = Return printed).
Proof.
  apply (solutions_rendering (H := Sample.engine) (H0 := SampleSolver.solver)
           "x" "0" "x" Sample.x (Integer 0)); reflexivity.
Defined.

Lemma probe_equal_verdict_witness :
  exists res,
    Numeric.probe_equal (H := Sample.engine) (H0 := Sample.libm)
      (H1 := Sample.random) "x + x" "2*x" ["x"] 3 42 0.5 2 1e-6
    = Return res
    /\ 0 <= Numeric.failures res <= 3
    /\ (Numeric.equal res = true <-> Numeric.failures res = 0)
    /\ (Numeric.equal res = true ->
        Forall (fun err => Convert.gt err 1e-6 = false) (Numeric.max_errors res)).
Proof.
  apply (probe_equal_verdict (H := Sample.engine) (H0 := Sample.libm)
           (H1 := Sample.random) "x + x" "2*x"
           (Mul [Integer 2; Sample.x]) (Mul [Integer 2; Sample.x])
           ["x"] 3 42 0.5 2 1e-6);
    (discriminate || lia || reflexivity).
Defined.

Lemma probe_equal_unevaluable_witness :
  Numeric.probe_equal (H := Sample.engine) (H0 := Sample.libm)
    (H1 := Sample.random) "x" "x" ["y"] 3 42 0.5 2 1e-6
  = Return (Numeric.mkProbeResult false 3 3
              (repeat PrimFloat.infinity (Z.to_nat 3))).
Proof.
  apply (probe_equal_unevaluable (H := Sample.engine) (H0 := Sample.libm)
           (H1 := Sample.random) "x" "x" Sample.x Sample.x
           ["y"] 3 42 0.5 2 1e-6);
    (discriminate || lia || reflexivity || (left; reflexivity)).
Defined.

Lemma solve_ivp_trajectory_shape_witness :
  let r := ODE.mkODEResult true [0; 0.25; 0.5; 0.75; 1]%float
             [[1]; [1]; [1]; [1]; [1]]%float 4
             "Integration completed successfully" in
  0 <= ODE.steps_taken r <= Z.max 0 4
  /\ List.length (ODE.t_values r) = List.length (ODE.y_values r)
  /\ Forall (fun y => List.length y = List.length [1%float]) (ODE.y_values r)
  /\ Forall (fun y => ODE.exploded y = false) (tl (ODE.y_values r))
  /\ ((ODE.t_values r = [] /\ ODE.steps_taken r = 0 /\ ODE.success r = false)
      \/ (hd_error (ODE.t_values r) = Some 0%float
          /\ hd_error (ODE.y_values r) = Some [1%float]
          /\ (Z.of_nat (List.length (ODE.t_values r)) = ODE.steps_taken r + 1
              \/ (ODE.message r = "Solution exploded (exceeded threshold)"
                  /\ Z.of_nat (List.length (ODE.t_values r))
                     = ODE.steps_taken r)))).
Proof.
  apply (solve_ivp_trajectory_shape (H := Sample.engine) "0" 0 1 [1%float]
           ["t"; "y"] 1e-6 1e-8 4).
  vm_compute. reflexivity.
Defined.

Lemma solve_ivp_success_meaning_witness :
  let r := ODE.mkODEResult true [0; 0.25; 0.5; 0.75; 1]%float
             [[1]; [1]; [1]; [1]; [1]]%float 4
             "Integration completed successfully" in
  (ODE.success r = true <-> ODE.message r = "Integration completed successfully")
  /\ (ODE.success r = true ->
      1 <= ODE.steps_taken r
      /\ (Convert.ge (List.last (ODE.t_values r) 0%float) (1 - 1e-10)%float = true
          \/ ODE.steps_taken r = 4)).
Proof.
  apply (solve_ivp_success_meaning (H := Sample.engine) "0" 0 1 [1%float]
           ["t"; "y"] 1e-6 1e-8 4).
  vm_compute. reflexivity.
Defined.

Lemma solve_ivp_common_increment_witness :
  Trajectory.chained Trajectory.shifted
    (ODE.y_values
       (ODE.mkODEResult true [0; 0.25; 0.5; 0.75; 1]%float
          [[1]; [1]; [1]; [1]; [1]]%float 4
          "Integration completed successfully")).
Proof.
  apply (solve_ivp_common_increment (H := Sample.engine) "0" 0 1 [1%float]
           ["t"; "y"] 1e-6 1e-8 4).
  vm_compute. reflexivity.
Defined.

Lemma solve_ivp_throws_witness :
  PrimFloat.leb 1 0 = false /\ [1%float] <> [] /\ ["t"; "y"] <> [] /\ 0 < 4
  /\ exists ex,
       (SymEngine.parse (Engine := Sample.engine) "y'" = Throw ex
        \/ ((exists parsed,
                SymEngine.parse (Engine := Sample.engine) "y'" = Return parsed)
            /\ is_kind KODE ex = false))
       /\ ParseError "Failed to parse ODE expression: Parsing Unsuccessful"
          = (if is_symengine_parse_error ex
             then ParseError ("Failed to parse ODE expression: " +:+ what ex)
             else ODEError ("ODE integration failed: " +:+ what ex)).
Proof.
  apply (solve_ivp_throws (H := Sample.engine) "y'" 0 1 [1%float]
           ["t"; "y"] 1e-6 1e-8 4).
  vm_compute. reflexivity.
Defined.

Lemma solve_ivp_mismatch_witness :
  ODE.solve_ivp (H := Sample.engine) "0" 0 1 [1; 2]%float ["t"; "y"] 1e-6 1e-8 4
  = Return (ODE.mkODEResult false [0%float] [[1; 2]%float] 0
              "ODE evaluation failed: ODEError: Mismatch between y values and symbols").
Proof.
  apply (solve_ivp_mismatch (H := Sample.engine) "0" (Integer 0) 0 1
           [1; 2]%float ["t"; "y"] 1e-6 1e-8 4);
    (reflexivity || discriminate || (cbn; lia)).
Defined.
